(** * burh: the note storage engine (package [notes]) in Rocq

    A shallow embedding of [notes/note.go]: the identifier scheme
    ([sanitizeTitle], [CreateNote]), the two text dialects
    ([formatTxtNote]/[parseTxtNote], [formatOrgNote]/[parseOrgNote]) and the
    catalog operations ([GetNote], [UpdateNote], [DeleteNote], [ListNotes],
    the three searches), followed by the properties of the specification
    that concern them.

    Conventions.
    - A Go [string] is a byte sequence: [gostring := list ascii], one
      [ascii] per byte; [len] is [length].
    - The functions of Go's [strings], [time], [path/filepath] and [os]
      packages that [note.go] calls are modelled in the modules of the same
      name, with Go's argument order.  Case mapping and white space are the
      ASCII ones: bytes above 127 are left alone by [ToLower]/[ToUpper] and
      are never white space.
    - [map[string]struct{}] is a [gset gostring]; ranging over it yields the
      elements in an unspecified order ([elements]).
    - The file system and the wall clock are explicit state ([World]),
      threaded through the operations by a small state monad. *)

From Stdlib Require Import ZArith Ascii String List Bool Lia.
From stdpp Require Import base gmap sets list strings.

Local Open Scope Z_scope.
Local Open Scope list_scope.

Set Warnings "-clear-no-such-hyp".

(** ** Go strings *)

Definition gostring : Type := list ascii.

(** A Go string literal. *)
Definition lit (s : string) : gostring := list_ascii_of_string s.

Definition byteLF : ascii := "010"%char.
Definition byteBackslash : ascii := "092"%char.
Definition byteQuote : ascii := "034"%char.

Definition eqs (a b : gostring) : bool := bool_decide (a = b).

Module strings.

(** [unicode.IsSpace] on the ASCII range: tab, LF, VT, FF, CR, space. *)
Definition isSpace (c : ascii) : bool :=
  match c with
  | "009" | "010" | "011" | "012" | "013" | " " => true
  | _ => false
  end%char.

Definition lowerByte (c : ascii) : ascii :=
  let n := N_of_ascii c in
  if ((65 <=? n) && (n <=? 90))%N then ascii_of_N (n + 32) else c.

Definition upperByte (c : ascii) : ascii :=
  let n := N_of_ascii c in
  if ((97 <=? n) && (n <=? 122))%N then ascii_of_N (n - 32) else c.

Definition ToLower (s : gostring) : gostring := map lowerByte s.
Definition ToUpper (s : gostring) : gostring := map upperByte s.

Fixpoint HasPrefix (s prefix : gostring) {struct prefix} : bool :=
  match prefix, s with
  | [], _ => true
  | _ :: _, [] => false
  | a :: p', b :: s' => Ascii.eqb a b && HasPrefix s' p'
  end.

Definition HasSuffix (s suffix : gostring) : bool :=
  HasPrefix (rev s) (rev suffix).

Definition TrimPrefix (s prefix : gostring) : gostring :=
  if HasPrefix s prefix then drop (length prefix) s else s.

Definition TrimSuffix (s suffix : gostring) : gostring :=
  if HasSuffix s suffix then take (length s - length suffix) s else s.

(** [Index] returns the byte offset of the first occurrence; Go's [-1] is
    [None]. *)
Fixpoint Index (s substr : gostring) : option nat :=
  if HasPrefix s substr then Some 0%nat
  else match s with
       | [] => None
       | _ :: s' => S <$> Index s' substr
       end.

(** [LastIndex] returns the offset of the last occurrence. *)
Fixpoint LastIndex (s substr : gostring) : option nat :=
  match s with
  | [] => if HasPrefix [] substr then Some 0%nat else None
  | _ :: s' =>
      match LastIndex s' substr with
      | Some i => Some (S i)
      | None => if HasPrefix s substr then Some 0%nat else None
      end
  end.

Definition Contains (s substr : gostring) : bool :=
  match Index s substr with Some _ => true | None => false end.

(** [strings.Split(s, sep)] for a one-byte separator, the only kind the
    package uses: the pieces between the separators, one more than there
    are separators. *)
Fixpoint Split (s : gostring) (sep : ascii) : list gostring :=
  match s with
  | [] => [[]]
  | c :: s' =>
      if Ascii.eqb c sep then [] :: Split s' sep
      else match Split s' sep with
           | piece :: pieces => (c :: piece) :: pieces
           | [] => [[c]]
           end
  end.

Fixpoint Join (elems : list gostring) (sep : gostring) : gostring :=
  match elems with
  | [] => []
  | [e] => e
  | e :: rest => e ++ sep ++ Join rest sep
  end.

(** [strings.ReplaceAll(s, old, new)] for a non-empty [old]: a left to
    right scan that replaces non-overlapping occurrences; [skip] counts
    the bytes of the occurrence just replaced that are still to be
    passed over. *)
Fixpoint replaceFrom (skip : nat) (s old new : gostring) : gostring :=
  match s with
  | [] => []
  | c :: s' =>
      match skip with
      | S k => replaceFrom k s' old new
      | O =>
          if HasPrefix s old
          then new ++ replaceFrom (length old - 1) s' old new
          else c :: replaceFrom 0 s' old new
      end
  end.

Definition ReplaceAll (s old new : gostring) : gostring :=
  replaceFrom 0 s old new.

Fixpoint trimLeft (s : gostring) : gostring :=
  match s with
  | c :: s' => if isSpace c then trimLeft s' else s
  | [] => []
  end.

Definition TrimSpace (s : gostring) : gostring :=
  rev (trimLeft (rev (trimLeft s))).

(** [strings.Fields]: the maximal runs of bytes that are not white
    space. *)
Fixpoint Fields (s : gostring) : list gostring :=
  match s with
  | [] => []
  | c :: s' =>
      if isSpace c then Fields s'
      else match s' with
           | [] => [[c]]
           | d :: _ =>
               if isSpace d then [c] :: Fields s'
               else match Fields s' with
                    | f :: fs => (c :: f) :: fs
                    | [] => [[c]]
                    end
           end
  end.

End strings.


(** ** Go's [time] package

    A [Time] is kept as its wall-clock reading in its own location together
    with the location's offset from UTC; the instant it denotes is
    [unixSec] and [Nanosecond].  [time.Parse] yields UTC times. *)

Module time.

Record Time := mkTime {
  Year : Z; Month : Z; Day : Z;
  Hour : Z; Minute : Z; Second : Z;
  Nanosecond : Z;
  zoneOffset : Z (* seconds east of UTC *)
}.

(** The zero [Time]: January 1, year 1, 00:00:00 UTC. *)
Definition zero : Time := mkTime 1 1 1 0 0 0 0 0.

Definition isLeap (year : Z) : bool :=
  (year mod 4 =? 0) && (negb (year mod 100 =? 0) || (year mod 400 =? 0)).

Definition daysIn (m year : Z) : Z :=
  if m =? 2 then (if isLeap year then 29 else 28)
  else if (m =? 4) || (m =? 6) || (m =? 9) || (m =? 11) then 30
  else 31.

(** Days from 1970-01-01 to the given civil date (proleptic Gregorian). *)
Definition daysSinceEpoch (y m d : Z) : Z :=
  let y' := if m <=? 2 then y - 1 else y in
  let era := y' / 400 in
  let yoe := y' - era * 400 in
  let doy := (153 * (if 2 <? m then m - 3 else m + 9) + 2) / 5 + d - 1 in
  let doe := yoe * 365 + yoe / 4 - yoe / 100 + doy in
  era * 146097 + doe - 719468.

(** The civil date of a day number, inverse of [daysSinceEpoch]. *)
Definition civil (days : Z) : Z * Z * Z :=
  let z := days + 719468 in
  let era := z / 146097 in
  let doe := z - era * 146097 in
  let yoe := (doe - doe / 1460 + doe / 36524 - doe / 146096) / 365 in
  let doy := doe - (365 * yoe + yoe / 4 - yoe / 100) in
  let mp := (5 * doy + 2) / 153 in
  let d := doy - (153 * mp + 2) / 5 + 1 in
  let m := if mp <? 10 then mp + 3 else mp - 9 in
  let y := yoe + era * 400 + (if m <=? 2 then 1 else 0) in
  (y, m, d).

(** Seconds of the wall-clock reading, counted from 1970-01-01 00:00:00
    in the reading's own zone. *)
Definition wallSec (t : Time) : Z :=
  daysSinceEpoch (Year t) (Month t) (Day t) * 86400
  + Hour t * 3600 + Minute t * 60 + Second t.

Definition unixSec (t : Time) : Z := wallSec t - zoneOffset t.

Definition After (t u : Time) : bool :=
  (unixSec u <? unixSec t)
  || ((unixSec u =? unixSec t) && (Nanosecond u <? Nanosecond t)).

Definition Before (t u : Time) : bool :=
  (unixSec t <? unixSec u)
  || ((unixSec t =? unixSec u) && (Nanosecond t <? Nanosecond u)).

Definition IsZero (t : Time) : bool :=
  (unixSec t =? unixSec zero) && (Nanosecond t =? 0).

(** A [Duration] is a number of nanoseconds. *)
Definition Duration := Z.
Definition Hour_ : Duration := 3600 * 1000000000.

Definition Add (t : Time) (d : Duration) : Time :=
  let ns := Nanosecond t + d in
  let secs := wallSec t + ns / 1000000000 in
  let '(y, m, dd) := civil (secs / 86400) in
  let r := secs mod 86400 in
  mkTime y m dd (r / 3600) (r mod 3600 / 60) (r mod 60)
         (ns mod 1000000000) (zoneOffset t).

(** [time.Date] on arguments that are in range, which is how the package
    calls it (year, month and day of a parsed time, midnight). *)
Definition Date (year month day hour min sec nsec offset : Z) : Time :=
  mkTime year month day hour min sec nsec offset.

(** *** Layouts

    A layout is kept as the sequence of chunks that Go's [nextStdChunk]
    cuts it into: reference fields and the literal text between them. *)
Inductive chunk :=
| stdLongYear     (* "2006" *)
| stdZeroMonth    (* "01" *)
| stdZeroDay      (* "02" *)
| stdHour         (* "15" *)
| stdZeroMinute   (* "04" *)
| stdZeroSecond   (* "05" *)
| literal (s : gostring).

Definition layout := list chunk.

(** *** Formatting *)

Definition digitChar (d : Z) : ascii := ascii_of_N (48 + Z.to_N d).

Fixpoint utoa (fuel : nat) (u : Z) (acc : gostring) : gostring :=
  match fuel with
  | O => acc
  | S k =>
      let acc' := digitChar (u mod 10) :: acc in
      if u / 10 =? 0 then acc' else utoa k (u / 10) acc'
  end.

(** [appendInt]: decimal, zero-padded to [width], with a sign when
    negative. *)
Definition appendInt (x : Z) (width : nat) : gostring :=
  let u := Z.abs x in
  let ds := utoa (S (Z.to_nat (Z.log2 u))) u [] in
  (if x <? 0 then lit "-" else []) ++ replicate (width - length ds) "0"%char ++ ds.

Definition formatChunk (t : Time) (c : chunk) : gostring :=
  match c with
  | stdLongYear => appendInt (Year t) 4
  | stdZeroMonth => appendInt (Month t) 2
  | stdZeroDay => appendInt (Day t) 2
  | stdHour => appendInt (Hour t) 2
  | stdZeroMinute => appendInt (Minute t) 2
  | stdZeroSecond => appendInt (Second t) 2
  | literal s => s
  end.

Definition Format (t : Time) (l : layout) : gostring :=
  concat (map (formatChunk t) l).

(** *** Parsing *)

Definition isDigitByte (c : ascii) : bool :=
  let n := N_of_ascii c in ((48 <=? n) && (n <=? 57))%N.

Definition digitVal (c : ascii) : Z := Z.of_N (N_of_ascii c) - 48.

(** [getnum]: one or two digits; exactly two when [fixed]. *)
Definition getnum (s : gostring) (fixed : bool) : option (Z * gostring) :=
  match s with
  | c0 :: rest =>
      if isDigitByte c0 then
        match rest with
        | c1 :: rest' =>
            if isDigitByte c1 then Some (digitVal c0 * 10 + digitVal c1, rest')
            else if fixed then None else Some (digitVal c0, rest)
        | [] => if fixed then None else Some (digitVal c0, rest)
        end
      else None
  | [] => None
  end.

Fixpoint atoiDigits (acc : Z) (s : gostring) : option Z :=
  match s with
  | [] => Some acc
  | c :: s' => if isDigitByte c then atoiDigits (acc * 10 + digitVal c) s' else None
  end.

Fixpoint cutspace (s : gostring) : gostring :=
  match s with
  | c :: s' => if Ascii.eqb c " " then cutspace s' else s
  | [] => []
  end.

(** [skip]: the literal text of the layout must lead the value; a run of
    spaces in the layout stands for any run of spaces in the value.
    [inSpaces] holds while a run of layout spaces is being passed. *)
Fixpoint skipFrom (inSpaces : bool) (value prefix : gostring) : option gostring :=
  match prefix with
  | [] => Some value
  | p :: prefix' =>
      if Ascii.eqb p " " then
        if inSpaces then skipFrom true value prefix'
        else match value with
             | v :: _ =>
                 if Ascii.eqb v " " then skipFrom true (cutspace value) prefix'
                 else None
             | [] => skipFrom true value prefix'
             end
      else match value with
           | v :: value' =>
               if Ascii.eqb v p then skipFrom false value' prefix' else None
           | [] => None
           end
  end.

Definition skip (value prefix : gostring) : option gostring :=
  skipFrom false value prefix.

Fixpoint takeDigits (s : gostring) : gostring :=
  match s with
  | c :: s' => if isDigitByte c then c :: takeDigits s' else []
  | [] => []
  end.

Definition commaOrPeriod (c : ascii) : bool :=
  Ascii.eqb c "." || Ascii.eqb c ",".

(** The fields collected while parsing. *)
Record fields := mkFields {
  f_year : Z; f_month : Z; f_day : Z;
  f_hour : Z; f_min : Z; f_sec : Z; f_nsec : Z
}.

Definition inRange (lo x hi : Z) : bool := (lo <=? x) && (x <? hi).

(** One reference field of the layout against the head of the value;
    [None] is a parse error. *)
Definition parseChunk (c : chunk) (st : fields) (value : gostring)
  : option (fields * gostring) :=
  match c with
  | literal s => v ← skip value s; Some (st, v)
  | stdLongYear =>
      if (4 <=? length value)%nat then
        y ← atoiDigits 0 (take 4 value);
        Some (mkFields y (f_month st) (f_day st) (f_hour st) (f_min st)
                       (f_sec st) (f_nsec st), drop 4 value)
      else None
  | stdZeroMonth =>
      '(n, v) ← getnum value true;
      if inRange 1 n 13 then
        Some (mkFields (f_year st) n (f_day st) (f_hour st) (f_min st)
                       (f_sec st) (f_nsec st), v)
      else None
  | stdZeroDay =>
      '(n, v) ← getnum value true;
      Some (mkFields (f_year st) (f_month st) n (f_hour st) (f_min st)
                     (f_sec st) (f_nsec st), v)
  | stdHour =>
      '(n, v) ← getnum value false;
      if inRange 0 n 24 then
        Some (mkFields (f_year st) (f_month st) (f_day st) n (f_min st)
                       (f_sec st) (f_nsec st), v)
      else None
  | stdZeroMinute =>
      '(n, v) ← getnum value true;
      if inRange 0 n 60 then
        Some (mkFields (f_year st) (f_month st) (f_day st) (f_hour st) n
                       (f_sec st) (f_nsec st), v)
      else None
  | stdZeroSecond =>
      '(n, v) ← getnum value true;
      if inRange 0 n 60 then
        (* a fractional second in the value is accepted although the
           layout has none *)
        match v with
        | p :: d :: _ =>
            if commaOrPeriod p && isDigitByte d then
              let ds := takeDigits (drop 1 v) in
              let used := take 9 ds in
              ns ← atoiDigits 0 used;
              Some (mkFields (f_year st) (f_month st) (f_day st) (f_hour st)
                             (f_min st) n (ns * 10 ^ Z.of_nat (9 - length used)),
                    drop (S (length ds)) v)
            else Some (mkFields (f_year st) (f_month st) (f_day st) (f_hour st)
                                (f_min st) n (f_nsec st), v)
        | _ => Some (mkFields (f_year st) (f_month st) (f_day st) (f_hour st)
                              (f_min st) n (f_nsec st), v)
        end
      else None
  end.

Fixpoint parseChunks (l : layout) (st : fields) (value : gostring)
  : option (fields * gostring) :=
  match l with
  | [] => Some (st, value)
  | c :: l' => '(st', v) ← parseChunk c st value; parseChunks l' st' v
  end.

(** [time.Parse]: [None] is an error (Go then returns the zero [Time]). *)
Definition Parse (l : layout) (value : gostring) : option Time :=
  '(st, rest) ← parseChunks l (mkFields 0 1 1 0 0 0 0) value;
  match rest with
  | _ :: _ => None (* extra text *)
  | [] =>
      if (f_day st <? 1) || (daysIn (f_month st) (f_year st) <? f_day st)
      then None (* day out of range *)
      else Some (Date (f_year st) (f_month st) (f_day st)
                      (f_hour st) (f_min st) (f_sec st) (f_nsec st) 0)
  end.

End time.

(** The layouts of the package, as chunk sequences. *)

(** ["20060102_150405"] *)
Definition layoutID : time.layout :=
  [time.stdLongYear; time.stdZeroMonth; time.stdZeroDay; time.literal (lit "_");
   time.stdHour; time.stdZeroMinute; time.stdZeroSecond].

(** ["2006-01-02"] *)
Definition layoutDate : time.layout :=
  [time.stdLongYear; time.literal (lit "-"); time.stdZeroMonth;
   time.literal (lit "-"); time.stdZeroDay].

(** ["2006/01/02"] *)
Definition layoutDateSlash : time.layout :=
  [time.stdLongYear; time.literal (lit "/"); time.stdZeroMonth;
   time.literal (lit "/"); time.stdZeroDay].

(** ["01/02/2006"] *)
Definition layoutMDY : time.layout :=
  [time.stdZeroMonth; time.literal (lit "/"); time.stdZeroDay;
   time.literal (lit "/"); time.stdLongYear].

(** ["02/01/2006"] *)
Definition layoutDMY : time.layout :=
  [time.stdZeroDay; time.literal (lit "/"); time.stdZeroMonth;
   time.literal (lit "/"); time.stdLongYear].

(** ["2006-01-02 15:04:05"] *)
Definition layoutDateTime : time.layout :=
  layoutDate ++ [time.literal (lit " "); time.stdHour; time.literal (lit ":");
                 time.stdZeroMinute; time.literal (lit ":"); time.stdZeroSecond].

(** ["2006/01/02 15:04:05"] *)
Definition layoutDateTimeSlash : time.layout :=
  layoutDateSlash ++ [time.literal (lit " "); time.stdHour; time.literal (lit ":");
                      time.stdZeroMinute; time.literal (lit ":"); time.stdZeroSecond].

(** ** The world: file system and clock *)

(** An entry of a directory: a sub-directory, or a file with its bytes;
    reading a file that is not [Readable] fails. *)
Record DirEntry := mkEntry {
  Name : gostring;
  IsDir : bool;
  Data : gostring;
  Readable : bool
}.

Record World := mkWorld {
  dirs : list (gostring * list DirEntry); (* directory path ↦ entries *)
  clock : nat → time.Time;                (* successive readings of the clock *)
  ticks : nat                             (* readings taken so far *)
}.

Inductive error :=
| errReadDir (dir : gostring)
| errNotFound (id : gostring)
| errReadFile
| errWriteFile
| errRemove
| errWrap (msg : string) (e : error)
| panicIndexOutOfRange.

Inductive result (A : Type) :=
| Ok (a : A)
| Err (e : error).
Arguments Ok {A} a.
Arguments Err {A} e.

(** State passing over the world. *)
Definition IO (A : Type) : Type := World → A * World.

Global Instance io_ret : MRet IO := λ A a w, (a, w).

Global Instance io_bind : MBind IO :=
  λ A B k c w, let '(a, w') := c w in k a w'.

Module os.

Fixpoint lookupDir (path : gostring) (ds : list (gostring * list DirEntry))
  : option (list DirEntry) :=
  match ds with
  | [] => None
  | (p, es) :: ds' => if eqs p path then Some es else lookupDir path ds'
  end.

Fixpoint updateDir (path : gostring) (es : list DirEntry)
         (ds : list (gostring * list DirEntry)) : list (gostring * list DirEntry) :=
  match ds with
  | [] => [(path, es)]
  | (p, es') :: ds' =>
      if eqs p path then (p, es) :: ds' else (p, es') :: updateDir path es ds'
  end.

(** Byte-wise lexicographic order on names. *)
Fixpoint nameLeb (a b : gostring) : bool :=
  match a, b with
  | [], _ => true
  | _ :: _, [] => false
  | x :: a', y :: b' =>
      if (N_of_ascii x <? N_of_ascii y)%N then true
      else if Ascii.eqb x y then nameLeb a' b' else false
  end.

Fixpoint insertByName (e : DirEntry) (es : list DirEntry) : list DirEntry :=
  match es with
  | [] => [e]
  | e' :: es' =>
      if nameLeb (Name e) (Name e') then e :: es else e' :: insertByName e es'
  end.

Definition sortByName (es : list DirEntry) : list DirEntry :=
  foldr insertByName [] es.

(** [os.ReadDir]: the entries of the directory sorted by file name. *)
Definition ReadDir (path : gostring) : IO (result (list DirEntry)) :=
  λ w, match lookupDir path (dirs w) with
       | Some es => (Ok (sortByName es), w)
       | None => (Err (errReadDir path), w)
       end.

Fixpoint findEntry (name : gostring) (es : list DirEntry) : option DirEntry :=
  match es with
  | [] => None
  | e :: es' => if eqs (Name e) name then Some e else findEntry name es'
  end.

(** [os.ReadFile(filepath.Join(dir, name))]. *)
Definition ReadFile (dir name : gostring) : IO (result gostring) :=
  λ w, match lookupDir dir (dirs w) with
       | Some es =>
           match findEntry name es with
           | Some e =>
               if negb (IsDir e) && Readable e then (Ok (Data e), w)
               else (Err errReadFile, w)
           | None => (Err errReadFile, w)
           end
       | None => (Err errReadFile, w)
       end.

Fixpoint putEntry (name data : gostring) (es : list DirEntry) : list DirEntry :=
  match es with
  | [] => [mkEntry name false data true]
  | e :: es' =>
      if eqs (Name e) name then mkEntry name false data true :: es'
      else e :: putEntry name data es'
  end.

(** [os.WriteFile(filepath.Join(dir, name), data, 0644)]: creates or
    truncates the file; fails when the directory is missing, or the name
    is taken by a directory or by a file that cannot be accessed. *)
Definition WriteFile (dir name data : gostring) : IO (result unit) :=
  λ w, match lookupDir dir (dirs w) with
       | Some es =>
           match findEntry name es with
           | Some e =>
               if IsDir e || negb (Readable e) then (Err errWriteFile, w)
               else (Ok (), mkWorld (updateDir dir (putEntry name data es) (dirs w))
                                    (clock w) (ticks w))
           | None =>
               (Ok (), mkWorld (updateDir dir (putEntry name data es) (dirs w))
                               (clock w) (ticks w))
           end
       | None => (Err errWriteFile, w)
       end.

(** [os.MkdirAll(path, 0755)]. *)
Definition MkdirAll (path : gostring) : IO (result unit) :=
  λ w, match lookupDir path (dirs w) with
       | Some _ => (Ok (), w)
       | None => (Ok (), mkWorld (updateDir path [] (dirs w)) (clock w) (ticks w))
       end.

Fixpoint removeEntry (name : gostring) (es : list DirEntry) : list DirEntry :=
  match es with
  | [] => []
  | e :: es' => if eqs (Name e) name then es' else e :: removeEntry name es'
  end.

(** [os.Remove(filepath.Join(dir, name))]. *)
Definition Remove (dir name : gostring) : IO (result unit) :=
  λ w, match lookupDir dir (dirs w) with
       | Some es =>
           match findEntry name es with
           | Some _ =>
               (Ok (), mkWorld (updateDir dir (removeEntry name es) (dirs w))
                               (clock w) (ticks w))
           | None => (Err errRemove, w)
           end
       | None => (Err errRemove, w)
       end.

End os.

(** [time.Now()]: the next reading of the clock. *)
Definition Now : IO time.Time :=
  λ w, (clock w (ticks w), mkWorld (dirs w) (clock w) (S (ticks w))).

Module filepath.

(** [filepath.Ext]: scanning backwards from the end, the suffix that
    starts at the first dot met; empty when a separator or the start of
    the path comes first. *)
Fixpoint extScan (r acc : gostring) : gostring :=
  match r with
  | [] => []
  | c :: r' =>
      if Ascii.eqb c "/" then []
      else if Ascii.eqb c "." then c :: acc
      else extScan r' (c :: acc)
  end.

Definition Ext (path : gostring) : gostring := extScan (rev path) [].

End filepath.

(** ** Package [notes] *)

Record Note := mkNote {
  ID : gostring;
  Title : gostring;
  Content : gostring;
  Created : time.Time;
  Modified : time.Time;
  Tags : list gostring;
  Format : gostring; (* "org", "txt", or "md" *)
  Filename : gostring
}.

Record Manager := mkManager { notesDirs : list gostring }.

Definition NewManager (notesDir : gostring) : Manager := mkManager [notesDir].
Definition NewManagerWithDirs (notesDirs : list gostring) : Manager :=
  mkManager notesDirs.

(** The escape sequence backslash-n and the line break it stands for. *)
Definition escapedNewline : gostring := [byteBackslash; "n"%char].
Definition newline : gostring := [byteLF].

(** [sanitizeTitle] creates a filesystem-safe title. *)
Definition sanitizeTitle (title : gostring) : gostring :=
  let title := strings.ReplaceAll title (lit " ") (lit "_") in
  let title := strings.ReplaceAll title (lit "/") (lit "_") in
  let title := strings.ReplaceAll title [byteBackslash] (lit "_") in
  let title := strings.ReplaceAll title (lit ":") (lit "_") in
  let title := strings.ReplaceAll title (lit "*") (lit "_") in
  let title := strings.ReplaceAll title (lit "?") (lit "_") in
  let title := strings.ReplaceAll title [byteQuote] (lit "_") in
  let title := strings.ReplaceAll title (lit "<") (lit "_") in
  let title := strings.ReplaceAll title (lit ">") (lit "_") in
  let title := strings.ReplaceAll title (lit "|") (lit "_") in
  let title := strings.ToLower title in
  if (50 <? length title)%nat then take 50 title else title.

(** [containsTag] checks if a tag list contains a specific tag. *)
Fixpoint containsTag (tags : list gostring) (query : gostring) : bool :=
  match tags with
  | [] => false
  | tag :: tags' =>
      if strings.Contains (strings.ToLower tag) query then true
      else containsTag tags' query
  end.

(** [formatOrgNote] formats a note as Org mode. *)
Definition formatOrgNote (note : Note) : gostring :=
  lit "#+TITLE: " ++ Title note ++ newline
  ++ lit "#+DATE: " ++ time.Format (Created note) layoutDate ++ newline
  ++ lit "#+MODIFIED: " ++ time.Format (Modified note) layoutDate ++ newline
  ++ (if (0 <? length (Tags note))%nat
      then lit "#+TAGS: " ++ strings.Join (Tags note) (lit " ") ++ newline
      else [])
  ++ newline
  ++ lit "* CONTENT" ++ newline
  ++ strings.ReplaceAll (Content note) escapedNewline newline.

(** [formatTxtNote] formats a note as plain text. *)
Definition formatTxtNote (note : Note) : gostring :=
  lit "Title: " ++ Title note ++ newline
  ++ lit "Created: " ++ time.Format (Created note) layoutDateTime ++ newline
  ++ lit "Modified: " ++ time.Format (Modified note) layoutDateTime ++ newline
  ++ (if (0 <? length (Tags note))%nat
      then lit "Tags: " ++ strings.Join (Tags note) (lit ", ") ++ newline
      else [])
  ++ newline
  ++ strings.ReplaceAll (Content note) escapedNewline newline.

(** The [addTags] closure of [parseOrgNote]: the tags of a directive
    value or of a colon block, added to the set. *)
Definition addTags (tagLine : gostring) (tagSet : gset gostring) : gset gostring :=
  let trimmed := strings.TrimSpace tagLine in
  if eqs trimmed [] then tagSet
  else
    let normalized := strings.ReplaceAll trimmed (lit ":") (lit " ") in
    foldl (λ set t,
             if eqs t [] then set
             else let t := strings.TrimSpace t in
                  if eqs t [] then set else {[ t ]} ∪ set)
          tagSet (strings.Fields normalized).

(** The variables of the scanning loop of [parseOrgNote]; [contentStart]
    is [None] for Go's [-1]. *)
Record orgScan := mkOrgScan {
  orgTitle : gostring;
  orgTags : gset gostring;
  contentStart : option nat
}.

(** One iteration of the loop of [parseOrgNote], on line [i]. *)
Definition parseOrgLine (i : nat) (raw : gostring) (st : orgScan) : orgScan :=
  let line := strings.TrimSpace raw in
  let upper := strings.ToUpper line in
  if strings.HasPrefix upper (lit "#+TITLE:") then
    let maybe := strings.TrimSpace (drop (length (lit "#+TITLE:")) line) in
    if negb (eqs maybe []) then mkOrgScan maybe (orgTags st) (contentStart st)
    else st
  else if strings.HasPrefix upper (lit "#+FILETAGS:") then
    mkOrgScan (orgTitle st)
              (addTags (drop (length (lit "#+FILETAGS:")) line) (orgTags st))
              (contentStart st)
  else if strings.HasPrefix upper (lit "#+TAGS:") then
    mkOrgScan (orgTitle st)
              (addTags (drop (length (lit "#+TAGS:")) line) (orgTags st))
              (contentStart st)
  else
    let tagSet :=
      if strings.HasPrefix line (lit "*") then
        match strings.LastIndex line (lit " ") with
        | Some lastSpace =>
            if (lastSpace + 1 <? length line)%nat then
              let tagBlock := strings.TrimSpace (drop (lastSpace + 1) line) in
              if strings.HasPrefix tagBlock (lit ":")
                 && strings.HasSuffix tagBlock (lit ":")
              then addTags tagBlock (orgTags st)
              else orgTags st
            else orgTags st
        | None => orgTags st
        end
      else orgTags st in
    match contentStart st with
    | None =>
        if eqs line [] then mkOrgScan (orgTitle st) tagSet None
        else if strings.HasPrefix (strings.TrimSpace line) (lit "#+")
             then mkOrgScan (orgTitle st) tagSet None
             else mkOrgScan (orgTitle st) tagSet (Some i)
    | Some _ => mkOrgScan (orgTitle st) tagSet (contentStart st)
    end.

Fixpoint parseOrgLoop (i : nat) (lines : list gostring) (st : orgScan) : orgScan :=
  match lines with
  | [] => st
  | raw :: rest => parseOrgLoop (S i) rest (parseOrgLine i raw st)
  end.

Definition orgScanInit : orgScan := mkOrgScan [] ∅ None.

(** [parseOrgNote] parses an Org mode note; the tag set is returned as
    the Go code leaves it, before it is ranged over. *)
Definition parseOrgScan (content : gostring) : gostring * gostring * gset gostring :=
  let lines := strings.Split content byteLF in
  let st := parseOrgLoop 0 lines orgScanInit in
  let noteContent :=
    match contentStart st with
    | Some k => strings.TrimSpace (strings.Join (drop k lines) newline)
    | None => []
    end in
  (orgTitle st, noteContent, orgTags st).

Definition parseOrgNote (content : gostring) : gostring * gostring * list gostring :=
  let '(title, noteContent, tagSet) := parseOrgScan content in
  (title, noteContent, elements tagSet).

(** The loop of [parseTxtNote]. *)
Fixpoint parseTxtLoop (content : gostring) (lines : list gostring)
         (title noteContent : gostring) (tags : list gostring)
  : gostring * gostring * list gostring :=
  match lines with
  | [] => (title, noteContent, tags)
  | line :: rest =>
      if strings.HasPrefix line (lit "Title:") then
        parseTxtLoop content rest
          (strings.TrimSpace (strings.TrimPrefix line (lit "Title:")))
          noteContent tags
      else if strings.HasPrefix line (lit "Tags:") then
        let tagStr := strings.TrimSpace (strings.TrimPrefix line (lit "Tags:")) in
        parseTxtLoop content rest title noteContent
          (map strings.TrimSpace (strings.Split tagStr ","%char))
      else if strings.HasPrefix line (lit "Created:")
              || strings.HasPrefix line (lit "Modified:") then
        parseTxtLoop content rest title noteContent tags
      else if eqs line [] then
        parseTxtLoop content rest title noteContent tags
      else
        (* Start of content *)
        match strings.Index content line with
        | Some contentStart =>
            (title, strings.TrimSpace (drop contentStart content), tags)
        | None => (title, noteContent, tags)
        end
  end.

(** [parseTxtNote] parses a plain text note. *)
Definition parseTxtNote (content : gostring) : gostring * gostring * list gostring :=
  parseTxtLoop content (strings.Split content byteLF) [] [] [].

(** [saveNoteToFile] saves a note to its file. *)
Definition saveNoteToFile (m : Manager) (note : Note) : IO (result unit) :=
  match notesDirs m with
  | [] => mret (Err panicIndexOutOfRange)
  | dir :: _ =>
      let content :=
        if eqs (Format note) (lit "org") then formatOrgNote note
        else formatTxtNote note in
      os.WriteFile dir (Filename note) content
  end.

(** [loadNoteFromFile] loads a note from its file, [name] in [dir]. *)
Definition loadNoteFromFile (m : Manager) (dir name : gostring) : IO (result Note) :=
  r ← os.ReadFile dir name;
  match r with
  | Err e => mret (Err e)
  | Ok content =>
      let filename := name in (* filepath.Base of the joined path *)
      let ext := filepath.Ext filename in
      let id := strings.TrimSuffix filename ext in
      let '(title, noteContent, tags) :=
        if eqs ext (lit ".org") then parseOrgNote content
        else parseTxtNote content in
      let created :=
        if (15 <=? length id)%nat then
          match time.Parse layoutID (take 15 id) with
          | Some t => t
          | None => time.zero
          end
        else time.zero in
      created ← (if time.IsZero created then Now else mret created);
      modified ← Now;
      mret (Ok (mkNote id title noteContent created modified tags
                      (strings.TrimPrefix ext (lit ".")) filename))
  end.

(** [CreateNote] creates a new note with a unique ID. *)
Definition CreateNote (m : Manager) (title content : gostring)
           (tags : list gostring) (format : gostring) : IO (result Note) :=
  now ← Now;
  let sanitizedTitle := sanitizeTitle title in
  let id := time.Format now layoutID ++ lit "_" ++ sanitizedTitle in
  let format :=
    if negb (eqs format (lit "org")) && negb (eqs format (lit "txt"))
       && negb (eqs format (lit "md"))
    then lit "txt" else format in
  let filename := id ++ lit "." ++ format in
  let note := mkNote id title content now now tags format filename in
  match notesDirs m with
  | [] => mret (Err panicIndexOutOfRange)
  | dir :: _ =>
      r ← os.MkdirAll dir;
      match r with
      | Err e => mret (Err (errWrap "failed to create notes directory" e))
      | Ok _ =>
          r ← saveNoteToFile m note;
          match r with
          | Err e => mret (Err (errWrap "failed to save note" e))
          | Ok _ => mret (Ok note)
          end
      end
  end.

(** The loop of [GetNote] over the directory listing. *)
Fixpoint getNoteLoop (m : Manager) (dir id : gostring) (files : list DirEntry)
  : IO (result Note) :=
  match files with
  | [] => mret (Err (errNotFound id))
  | file :: rest =>
      if negb (IsDir file) && strings.HasPrefix (Name file) id
      then loadNoteFromFile m dir (Name file)
      else getNoteLoop m dir id rest
  end.

(** [GetNote] retrieves a note by ID. *)
Definition GetNote (m : Manager) (id : gostring) : IO (result Note) :=
  match notesDirs m with
  | [] => mret (Err panicIndexOutOfRange)
  | dir :: _ =>
      r ← os.ReadDir dir;
      match r with
      | Err e => mret (Err (errWrap "failed to read notes directory" e))
      | Ok files => getNoteLoop m dir id files
      end
  end.

(** [UpdateNote] updates an existing note. *)
Definition UpdateNote (m : Manager) (id title content : gostring)
           (tags : list gostring) : IO (result Note) :=
  r ← GetNote m id;
  match r with
  | Err e => mret (Err e)
  | Ok note =>
      now ← Now;
      let note := mkNote (ID note) title content (Created note) now tags
                         (Format note) (Filename note) in
      r ← saveNoteToFile m note;
      match r with
      | Err e => mret (Err (errWrap "failed to save updated note" e))
      | Ok _ => mret (Ok note)
      end
  end.

(** [DeleteNote] deletes a note by ID. *)
Definition DeleteNote (m : Manager) (id : gostring) : IO (result unit) :=
  r ← GetNote m id;
  match r with
  | Err e => mret (Err e)
  | Ok note =>
      match notesDirs m with
      | [] => mret (Err panicIndexOutOfRange)
      | dir :: _ => os.Remove dir (Filename note)
      end
  end.

Definition recognizedExtension (name : gostring) : bool :=
  strings.HasSuffix name (lit ".org") || strings.HasSuffix name (lit ".txt")
  || strings.HasSuffix name (lit ".md").

(** The inner loop of [ListNotes], over the files of one directory. *)
Fixpoint listFilesLoop (m : Manager) (notesDir : gostring) (files : list DirEntry)
         (allNotes : list Note) : IO (list Note) :=
  match files with
  | [] => mret allNotes
  | file :: rest =>
      if negb (IsDir file) && recognizedExtension (Name file) then
        r ← loadNoteFromFile m notesDir (Name file);
        match r with
        | Err _ => listFilesLoop m notesDir rest allNotes (* skip *)
        | Ok note => listFilesLoop m notesDir rest (allNotes ++ [note])
        end
      else listFilesLoop m notesDir rest allNotes
  end.

(** The outer loop of [ListNotes], over the directories. *)
Fixpoint listDirsLoop (m : Manager) (ds : list gostring) (allNotes : list Note)
  : IO (result (list Note)) :=
  match ds with
  | [] => mret (Ok allNotes)
  | notesDir :: rest =>
      r ← os.ReadDir notesDir;
      match r with
      | Err e => mret (Err (errWrap "failed to read notes directory" e))
      | Ok files =>
          allNotes ← listFilesLoop m notesDir files allNotes;
          listDirsLoop m rest allNotes
      end
  end.

(** [ListNotes] returns all notes. *)
Definition ListNotes (m : Manager) : IO (result (list Note)) :=
  listDirsLoop m (notesDirs m) [].

(** [SearchNotes] searches notes by title, content, or tags. *)
Definition SearchNotes (m : Manager) (query : gostring) : IO (result (list Note)) :=
  r ← ListNotes m;
  match r with
  | Err e => mret (Err e)
  | Ok notes =>
      let query := strings.ToLower query in
      mret (Ok (filter (λ note,
                 strings.Contains (strings.ToLower (Title note)) query
                 || strings.Contains (strings.ToLower (Content note)) query
                 || containsTag (Tags note) query = true) notes))
  end.

(** [SearchByTag] searches notes by specific tag. *)
Definition SearchByTag (m : Manager) (tag : gostring) : IO (result (list Note)) :=
  r ← ListNotes m;
  match r with
  | Err e => mret (Err e)
  | Ok notes =>
      let tag := strings.ToLower (strings.TrimSpace tag) in
      mret (Ok (filter (λ note, containsTag (Tags note) tag = true) notes))
  end.

(** The layouts tried by [SearchByDate], in order. *)
Definition dateFormats : list time.layout :=
  [layoutDate; layoutDateSlash; layoutMDY; layoutDMY;
   layoutDateTime; layoutDateTimeSlash].

(** The loop over the layouts: the first that parses wins; [targetDate]
    and [err2] are the variables of the Go code ([true] for a non-nil
    error). *)
Fixpoint tryFormats (formats : list time.layout) (dateQuery : gostring)
         (targetDate : time.Time) (err2 : bool) : time.Time * bool :=
  match formats with
  | [] => (targetDate, err2)
  | format :: rest =>
      match time.Parse format dateQuery with
      | Some t => (t, false)
      | None => tryFormats rest dateQuery time.zero true
      end
  end.

(** [SearchByDate] searches notes by date (supports various formats). *)
Definition SearchByDate (m : Manager) (dateQuery : gostring) : IO (result (list Note)) :=
  r ← ListNotes m;
  match r with
  | Err e => mret (Err e)
  | Ok notes =>
      let dateQuery := strings.ToLower (strings.TrimSpace dateQuery) in
      let '(targetDate, err2) := tryFormats dateFormats dateQuery time.zero false in
      if err2 then
        (* no layout parsed: match date strings *)
        mret (Ok (filter (λ note,
                   let noteDateStr := time.Format (Created note) layoutDate in
                   strings.Contains (strings.ToLower noteDateStr) dateQuery = true)
                 notes))
      else
        let targetDateStart :=
          time.Date (time.Year targetDate) (time.Month targetDate)
                    (time.Day targetDate) 0 0 0 0 (time.zoneOffset targetDate) in
        let targetDateEnd := time.Add targetDateStart (24 * time.Hour_) in
        mret (Ok (filter (λ note,
                   time.After (Created note) targetDateStart
                   && time.Before (Created note) targetDateEnd = true)
                 notes))
  end.

(** ** Vocabulary of the statements *)

(** The title after the ten substitutions and lower-casing of
    [sanitizeTitle], before its length is limited. *)
Definition substituteUnsafe (title : gostring) : gostring :=
  strings.ToLower
    (strings.ReplaceAll (strings.ReplaceAll (strings.ReplaceAll
    (strings.ReplaceAll (strings.ReplaceAll (strings.ReplaceAll
    (strings.ReplaceAll (strings.ReplaceAll (strings.ReplaceAll
    (strings.ReplaceAll title
       (lit " ") (lit "_")) (lit "/") (lit "_")) [byteBackslash] (lit "_"))
       (lit ":") (lit "_")) (lit "*") (lit "_")) (lit "?") (lit "_"))
       [byteQuote] (lit "_")) (lit "<") (lit "_")) (lit ">") (lit "_"))
       (lit "|") (lit "_")).





(** The reading 2024-12-01T14:30:22 (UTC) and a clock that shows it. *)
Definition dec1_143022 : time.Time := time.mkTime 2024 12 1 14 30 22 0 0.

Definition emptyWorldAt (t : time.Time) : World := mkWorld [] (λ _, t) 0.

Definition notesDir : gostring := lit "/notes".
Definition theManager : Manager := NewManager notesDir.





(** The test of the loop of [GetNote]: a regular file whose name starts
    with the identifier. *)
Definition matchesID (id : gostring) (file : DirEntry) : bool :=
  negb (IsDir file) && strings.HasPrefix (Name file) id.

(** Two notes made in the same second, titled "plan" and "plan-b": the
    identifier of the first is a proper prefix of that of the second. *)
Definition idPlan : gostring := lit "20241201_143022_plan".
Definition idPlanB : gostring := lit "20241201_143022_plan-b".

Definition planWorld : World :=
  (CreateNote theManager (lit "plan-b") (lit "the fallback") [] (lit "txt")
     (CreateNote theManager (lit "plan") (lit "the plan") [] (lit "txt")
        (emptyWorldAt dec1_143022)).2).2.

(** The names in a directory, in listing order, and the bytes of a file,
    when they can be read. *)
Definition listing (dir : gostring) (w : World) : option (list gostring) :=
  match (os.ReadDir dir w).1 with
  | Ok files => Some (map Name files)
  | Err _ => None
  end.

Definition fileData (dir name : gostring) (w : World) : option gostring :=
  match (os.ReadFile dir name w).1 with
  | Ok data => Some data
  | Err _ => None
  end.

Definition noteOf {A} (f : Note → A) (r : result Note) : option A :=
  match r with
  | Ok note => Some (f note)
  | Err _ => None
  end.

(** The invariant of the data model: the file name is the identifier, a
    dot, and the format. *)
Definition filenameInvariant (note : Note) : Prop :=
  Filename note = ID note ++ lit "." ++ Format note.

(** A notes directory that also holds a file without extension. *)
Definition strayWorld : World :=
  mkWorld [(notesDir,
            [mkEntry (lit "20241201_143022_todo.txt") false
                     (lit "Title: todo" ++ newline ++ newline ++ lit "buy milk") true;
             mkEntry (lit "20241201_143022_todo") false (lit "scratch copy") true])]
          (λ _, dec1_143022) 0.

(** A regular file with a recognized extension that can be read: the
    files that [ListNotes] turns into notes. *)
Definition loadable (w : World) (dir : gostring) (file : DirEntry) : bool :=
  negb (IsDir file) && recognizedExtension (Name file)
  && bool_decide (is_Some (fileData dir (Name file) w)).

(** The file names that [ListNotes] is to report: for each directory in
    turn, the loadable files in listing order. *)
Definition loadableNames (w : World) (ds : list gostring) : list gostring :=
  flat_map (λ dir,
              match os.lookupDir dir (dirs w) with
              | Some entries => map Name (filter (λ f, loadable w dir f = true)
                                                 (os.sortByName entries))
              | None => []
              end) ds.

(** The fields that [loadNoteFromFile] decodes from the bytes of the file
    [name]. *)
Definition decodeFile (name content : gostring) : gostring * gostring * list gostring :=
  if eqs (filepath.Ext name) (lit ".org") then parseOrgNote content
  else parseTxtNote content.

(** What [ListNotes] returns for a file: the note decoded from the bytes
    of a file of one of the directories, named after it. *)
Definition loadedFrom (w : World) (ds : list gostring) (note : Note) : Prop :=
  ∃ dir content,
    dir ∈ ds
    ∧ fileData dir (Filename note) w = Some content
    ∧ (Title note, Content note, Tags note) = decodeFile (Filename note) content
    ∧ filenameInvariant note.

(** Three well-formed notes and a file of garbage with a recognized
    extension. *)
Definition garbage : gostring :=
  ["000"; "255"; "137"; "%"; "%"; "001"; "010"; "254"; "{"; "{"]%char.

Definition mixedWorld : World :=
  mkWorld [(notesDir,
            [mkEntry (lit "20241201_090000_alpha.txt") false
                     (lit "Title: alpha" ++ newline ++ newline ++ lit "first") true;
             mkEntry (lit "20241201_100000_beta.org") false
                     (lit "#+TITLE: beta" ++ newline ++ newline ++ lit "second") true;
             mkEntry (lit "20241201_110000_gamma.md") false
                     (lit "Title: gamma" ++ newline ++ newline ++ lit "third") true;
             mkEntry (lit "20241201_120000_junk.txt") false garbage true])]
          (λ _, dec1_143022) 0.

(** A note made at midnight and one made in the last second of
    2024-12-01. *)
Definition dayWorld : World :=
  mkWorld [(notesDir,
            [mkEntry (lit "20241201_000000_midnight.txt") false
                     (lit "Title: midnight" ++ newline ++ newline ++ lit "early") true;
             mkEntry (lit "20241201_235959_late.txt") false
                     (lit "Title: late" ++ newline ++ newline ++ lit "late") true])]
          (λ _, dec1_143022) 0.

Definition notesOf {A} (f : Note → A) (r : result (list Note)) : option (list A) :=
  match r with
  | Ok notes => Some (map f notes)
  | Err _ => None
  end.

(** White space removed on the right only. *)
Definition trimRight (s : gostring) : gostring :=
  rev (strings.trimLeft (rev s)).

(** The text of the lines [ls], each closed by a line break. *)
Definition linesText (ls : list gostring) : gostring :=
  concat (map (λ l, l ++ newline) ls).

(** A line led by one of the four labels of the plain dialect, and a line
    that the loop of [parseTxtNote] passes over: labelled, or empty. *)
Definition txtLabelled (line : gostring) : bool :=
  strings.HasPrefix line (lit "Title:") || strings.HasPrefix line (lit "Tags:")
  || strings.HasPrefix line (lit "Created:") || strings.HasPrefix line (lit "Modified:").

Definition txtMetaOrBlank (line : gostring) : bool :=
  txtLabelled line || eqs line [].

(** A token of a tag line: not empty, without white space. *)
Definition spaceFree (s : gostring) : Prop :=
  Forall (λ c, strings.isSpace c = false) s.


Definition allSpace (s : gostring) : Prop :=
  Forall (λ c, strings.isSpace c = true) s.



(** A note whose title holds "Hello" and whose content is "Hello" too. *)
Definition helloNote : Note :=
  mkNote (lit "20241201_143022_hello") (lit "Hello") (lit "Hello")
         dec1_143022 dec1_143022 [] (lit "txt") (lit "20241201_143022_hello.txt").


(** The byte-wise effect of [ReplaceAll(s, ":", " ")]. *)
Definition colonToSpace (c : ascii) : ascii :=
  if Ascii.eqb ":" c then " "%char else c.

(** The tokens that [addTags] takes from a directive value or a colon
    block. *)
Definition tagTokens (tagLine : gostring) : list gostring :=
  strings.Fields (map colonToSpace tagLine).

(** What one line contributes when the loop of [parseOrgNote] meets it:
    a title (empty when none), tags, and whether it can start the
    content. *)
Definition lineTitle (raw : gostring) : gostring :=
  orgTitle (parseOrgLine 0 raw orgScanInit).

Definition lineTags (raw : gostring) : gset gostring :=
  orgTags (parseOrgLine 0 raw orgScanInit).

Definition startsContent (raw : gostring) : bool :=
  bool_decide (is_Some (contentStart (parseOrgLine 0 raw orgScanInit))).


(** The results of [parseOrgNote], and the line at which the content
    starts. *)
Definition orgTitleOf (s : gostring) : gostring := (parseOrgScan s).1.1.
Definition orgContentOf (s : gostring) : gostring := (parseOrgScan s).1.2.
Definition orgTagsOf (s : gostring) : gset gostring := (parseOrgScan s).2.

Definition orgContentStart (s : gostring) : option nat :=
  contentStart (parseOrgLoop 0 (strings.Split s byteLF) orgScanInit).

(** The title after one more line, and the first line from index [i] on
    that can start the content. *)
Definition titleStep (title raw : gostring) : gostring :=
  if eqs (lineTitle raw) [] then title else lineTitle raw.

Fixpoint firstContentLine (i : nat) (lines : list gostring) : option nat :=
  match lines with
  | [] => None
  | raw :: rest => if startsContent raw then Some i else firstContentLine (S i) rest
  end.




(** Content followed by directive lines. *)
Definition lateDirectives : gostring :=
  lit "#+TITLE: Late" ++ newline ++ lit "#+TAGS: x" ++ newline
  ++ lit "* Done :y:".


(** The bytes that [saveNoteToFile] writes for a note. *)
Definition serialize (note : Note) : gostring :=
  if eqs (Format note) (lit "org") then formatOrgNote note else formatTxtNote note.

(** The formats that [CreateNote] accepts as they are. *)
Definition validFormat (format : gostring) : bool :=
  eqs format (lit "org") || eqs format (lit "txt") || eqs format (lit "md").

(** The primary directory of a manager, when it has one. *)
Definition primaryDir (m : Manager) : option gostring := head (notesDirs m).
(** ** Lemmas on strings *)

Lemma HasPrefix_app (s p : gostring) : strings.HasPrefix (p ++ s) p = true.
Proof.
  induction p as [|c p IH]; simpl; [done|].
  by rewrite Ascii.eqb_refl, IH.
Qed.

Lemma HasPrefix_inv (s p : gostring) :
  strings.HasPrefix s p = true → ∃ r, s = p ++ r.
Proof.
  revert s; induction p as [|c p IH]; intros s H; simpl in *.
  - by exists s.
  - destruct s as [|b s]; [done|].
    apply andb_prop in H as [Hc Hp].
    apply Ascii.eqb_eq in Hc as ->.
    destruct (IH _ Hp) as [r ->]. by exists r.
Qed.

Lemma replaceFrom_byte_length (s : gostring) (a b : ascii) :
  length (strings.replaceFrom 0 s [a] [b]) = length s.
Proof.
  induction s as [|c s IH]; simpl; [done|].
  destruct (Ascii.eqb a c); simpl; by rewrite IH.
Qed.

Lemma ReplaceAll_byte_length (s : gostring) (a b : ascii) :
  length (strings.ReplaceAll s [a] [b]) = length s.
Proof. apply replaceFrom_byte_length. Qed.

Lemma ReplaceAll_byte_map (s : gostring) (a b : ascii) :
  strings.ReplaceAll s [a] [b] = map (λ c, if Ascii.eqb a c then b else c) s.
Proof.
  unfold strings.ReplaceAll.
  induction s as [|c s IH]; simpl; [done|].
  destruct (Ascii.eqb a c); simpl; by rewrite IH.
Qed.


Lemma substituteUnsafe_length (title : gostring) :
  length (substituteUnsafe title) = length title.
Proof.
  unfold substituteUnsafe, strings.ToLower, lit; simpl.
  rewrite length_map. by rewrite !ReplaceAll_byte_length.
Qed.


(** ** Lemmas on the operations *)

(** A note returned by [CreateNote] is the one it builds from its
    arguments and the clock. *)
Lemma CreateNote_Ok m title content tags format w note w' :
  CreateNote m title content tags format w = (Ok note, w') →
  let now := clock w (ticks w) in
  let id := time.Format now layoutID ++ lit "_" ++ sanitizeTitle title in
  ∃ fmt, note = mkNote id title content now now tags fmt (id ++ lit "." ++ fmt)
         ∧ (fmt = format ∨ fmt = lit "txt")
         ∧ fmt ∈ [lit "org"; lit "txt"; lit "md"].
Proof.
  unfold CreateNote, mbind, io_bind, mret, io_ret, Now. simpl.
  destruct (notesDirs m) as [|dir ds]; [done|].
  destruct (os.MkdirAll dir _) as [[u|e] w1]; [|done].
  destruct (saveNoteToFile m _ w1) as [[u'|e] w2]; [|done].
  intros [= <- <-].
  eexists; split; [reflexivity|].
  unfold eqs.
  repeat case_bool_decide; subst; simpl; set_solver.
Qed.

(** *** The identifier *)








(** [GetNote] loads the first file of the listing that passes the test of
    its loop. *)
Lemma getNoteLoop_find m dir id files w :
  getNoteLoop m dir id files w =
  match find (matchesID id) files with
  | Some file => loadNoteFromFile m dir (Name file) w
  | None => (Err (errNotFound id), w)
  end.
Proof.
  induction files as [|file rest IH]; simpl; [done|].
  unfold matchesID at 1.
  by destruct (negb (IsDir file) && strings.HasPrefix (Name file) id).
Qed.

(** *** File names and extensions *)

Lemma extScan_spec (r acc : gostring) :
  filepath.extScan r acc = []
  ∨ ∃ r1 r2, r = r1 ++ "."%char :: r2
             ∧ filepath.extScan r acc = "."%char :: rev r1 ++ acc.
Proof.
  revert acc; induction r as [|c r IH]; intros acc; simpl; [by left|].
  destruct (Ascii.eqb c "/") eqn:Hsep; [by left|].
  destruct (Ascii.eqb c ".") eqn:Hdot.
  - apply Ascii.eqb_eq in Hdot as ->. right. by exists [], r.
  - destruct (IH (c :: acc)) as [H|(r1 & r2 & -> & H)]; [by left|].
    right. exists (c :: r1), r2. split; [done|].
    rewrite H. simpl. by rewrite <- app_assoc.
Qed.

(** A name with an extension is its stem followed by the extension, which
    starts with a dot. *)
Lemma Ext_spec (name : gostring) :
  filepath.Ext name = []
  ∨ ∃ stem e, name = stem ++ "."%char :: e ∧ filepath.Ext name = "."%char :: e.
Proof.
  unfold filepath.Ext.
  destruct (extScan_spec (rev name) []) as [H|(r1 & r2 & Hr & H)]; [by left|].
  right. exists (rev r2), (rev r1). split.
  - rewrite <- (rev_involutive name), Hr, rev_app_distr. simpl.
    by rewrite <- app_assoc.
  - by rewrite H, app_nil_r.
Qed.

Lemma HasSuffix_app (s suffix : gostring) :
  strings.HasSuffix (s ++ suffix) suffix = true.
Proof. unfold strings.HasSuffix. rewrite rev_app_distr. apply HasPrefix_app. Qed.

Lemma HasSuffix_inv (s suffix : gostring) :
  strings.HasSuffix s suffix = true → ∃ stem, s = stem ++ suffix.
Proof.
  unfold strings.HasSuffix. intros H.
  apply HasPrefix_inv in H as [r Hr]. exists (rev r).
  by rewrite <- (rev_involutive s), Hr, rev_app_distr, rev_involutive.
Qed.

Lemma TrimSuffix_app (s suffix : gostring) :
  strings.TrimSuffix (s ++ suffix) suffix = s.
Proof.
  unfold strings.TrimSuffix. rewrite HasSuffix_app, length_app.
  replace (length s + length suffix - length suffix)%nat with (length s) by lia.
  by rewrite take_app_length.
Qed.

(** Identifier and format, as [loadNoteFromFile] derives them from a file
    name, give the name back exactly when the name has an extension. *)
Lemma name_split_invariant (name : gostring) :
  filepath.Ext name ≠ [] →
  name = strings.TrimSuffix name (filepath.Ext name) ++ lit "."
         ++ strings.TrimPrefix (filepath.Ext name) (lit ".").
Proof.
  intros Hext.
  destruct (Ext_spec name) as [H|(stem & e & Hname & H)]; [done|].
  rewrite H. rewrite Hname at 2. rewrite TrimSuffix_app.
  unfold strings.TrimPrefix; simpl. by rewrite Hname at 1.
Qed.

Lemma name_split_no_ext (name : gostring) :
  filepath.Ext name = [] →
  name ≠ strings.TrimSuffix name (filepath.Ext name) ++ lit "."
         ++ strings.TrimPrefix (filepath.Ext name) (lit ".").
Proof.
  intros ->. unfold strings.TrimSuffix, strings.TrimPrefix, strings.HasSuffix; simpl.
  rewrite Nat.sub_0_r, firstn_all. intros H.
  apply (f_equal length) in H. rewrite length_app in H. simpl in H. lia.
Qed.

Lemma recognizedExtension_Ext (name : gostring) :
  recognizedExtension name = true → filepath.Ext name ≠ [].
Proof.
  unfold recognizedExtension. intros H.
  apply orb_prop in H as [H|H]; [apply orb_prop in H as [H|H]|];
    apply HasSuffix_inv in H as [stem ->];
    unfold filepath.Ext; rewrite rev_app_distr; simpl; done.
Qed.

(** *** Loading a file *)

Lemma ReadFile_world dir name w : (os.ReadFile dir name w).2 = w.
Proof.
  unfold os.ReadFile.
  destruct (os.lookupDir dir (dirs w)); [|done].
  destruct (os.findEntry name l); [|done].
  by destruct (negb (IsDir d) && Readable d).
Qed.

(** [loadNoteFromFile] fails only when the file cannot be read; whatever
    bytes are read decode into a note. *)
Lemma loadNoteFromFile_spec m dir name w :
  match fileData dir name w with
  | Some content =>
      ∃ note w',
        loadNoteFromFile m dir name w = (Ok note, w')
        ∧ dirs w' = dirs w ∧ clock w' = clock w
        ∧ Filename note = name
        ∧ ID note = strings.TrimSuffix name (filepath.Ext name)
        ∧ Format note = strings.TrimPrefix (filepath.Ext name) (lit ".")
        ∧ (Title note, Content note, Tags note) = decodeFile name content
  | None => ∃ e, loadNoteFromFile m dir name w = (Err e, w)
  end.
Proof.
  unfold fileData, loadNoteFromFile, mbind, io_bind, mret, io_ret.
  pose proof (ReadFile_world dir name w) as Hw.
  destruct (os.ReadFile dir name w) as [[content|e] w1]; simpl in *; subst w1.
  - unfold decodeFile.
    destruct (if eqs (filepath.Ext name) (lit ".org") then _ else _)
      as [[title noteContent] tags].
    match goal with
    | |- context [if time.IsZero ?c then _ else _] => destruct (time.IsZero c)
    end; unfold Now; simpl; eexists _, _; repeat split; reflexivity.
  - by exists e.
Qed.

(** *** Listing *)

Lemma fileData_dirs dir name w w' :
  dirs w' = dirs w → fileData dir name w' = fileData dir name w.
Proof.
  unfold fileData, os.ReadFile. intros ->.
  destruct (os.lookupDir dir (dirs w)) as [entries|]; [|done].
  destruct (os.findEntry name entries) as [e|]; [|done].
  by destruct (negb (IsDir e) && Readable e).
Qed.

Lemma loadable_dirs dir file w w' :
  dirs w' = dirs w → loadable w' dir file = loadable w dir file.
Proof. intros H. unfold loadable. by rewrite (fileData_dirs _ _ _ _ H). Qed.

Lemma listFilesLoop_spec m dir files acc w :
  ∃ notes w',
    listFilesLoop m dir files acc w = (acc ++ notes, w')
    ∧ dirs w' = dirs w ∧ clock w' = clock w
    ∧ map Filename notes = map Name (filter (λ f, loadable w dir f = true) files)
    ∧ Forall (loadedFrom w [dir]) notes.
Proof.
  revert acc w; induction files as [|file rest IH]; intros acc w; simpl.
  - exists [], w. rewrite app_nil_r. by repeat (split; [done|]).
  - rewrite filter_cons.
    pose proof (loadNoteFromFile_spec m dir (Name file) w) as Hload.
    destruct (decide (loadable w dir file = true)) as [Hl|Hl].
    + unfold loadable in Hl. apply andb_prop in Hl as [Hreg Hdata].
      rewrite Hreg. apply bool_decide_eq_true in Hdata as [content Hdata].
      rewrite Hdata in Hload.
      destruct Hload as (note & w1 & Hrun & Hd & Hc & Hname & Hid & Hfmt & Hdec).
      unfold mbind, io_bind. rewrite Hrun.
      destruct (IH (acc ++ [note]) w1) as (notes & w' & -> & Hd' & Hc' & Hnames & Hall).
      exists (note :: notes), w'.
      rewrite <- app_assoc; simpl.
      split; [done|]. split; [congruence|]. split; [congruence|]. split.
      * rewrite Hname, Hnames. f_equal. f_equal.
        apply list_filter_iff. intros f. by rewrite (loadable_dirs _ _ _ _ Hd).
      * constructor.
        -- exists dir, content. rewrite Hname.
           split; [by left|]. split; [done|]. split; [exact Hdec|].
           unfold filenameInvariant. rewrite Hname, Hid, Hfmt.
           apply name_split_invariant, recognizedExtension_Ext.
           by apply andb_prop in Hreg as [_ ?].
        -- eapply Forall_impl; [exact Hall|].
           intros n (d & c & ? & Hf & ?). exists d, c.
           by rewrite <- (fileData_dirs _ _ _ _ Hd).
    + destruct (negb (IsDir file) && recognizedExtension (Name file)) eqn:Hreg;
        [|apply IH].
      destruct (fileData dir (Name file) w) as [content|] eqn:Hdata.
      { destruct Hl. unfold loadable. by rewrite Hreg, Hdata. }
      destruct Hload as (e & Hrun).
      unfold mbind, io_bind. rewrite Hrun. apply IH.
Qed.

Lemma loadedFrom_mono w ds ds' note :
  ds ⊆ ds' → loadedFrom w ds note → loadedFrom w ds' note.
Proof. intros Hsub (d & c & ? & ?). exists d, c. split; [by apply Hsub|done]. Qed.

(** [ListNotes] succeeds when every directory can be read, and returns
    the notes of the loadable files. *)
Lemma listDirsLoop_spec m ds acc w :
  Forall (λ dir, is_Some (os.lookupDir dir (dirs w))) ds →
  ∃ notes w',
    listDirsLoop m ds acc w = (Ok (acc ++ notes), w')
    ∧ dirs w' = dirs w ∧ clock w' = clock w
    ∧ map Filename notes = loadableNames w ds
    ∧ Forall (loadedFrom w ds) notes.
Proof.
  revert acc w; induction ds as [|dir rest IH]; intros acc w Hdirs; simpl.
  - exists [], w. rewrite app_nil_r. by repeat (split; [done|]).
  - apply Forall_cons in Hdirs as [[entries Hdir] Hrest].
    unfold mbind, io_bind, os.ReadDir. rewrite Hdir.
    destruct (listFilesLoop_spec m dir (os.sortByName entries) acc w)
      as (notes1 & w1 & -> & Hd1 & Hc1 & Hn1 & Hall1).
    destruct (IH (acc ++ notes1) w1) as (notes2 & w' & -> & Hd2 & Hc2 & Hn2 & Hall2).
    { by rewrite Hd1. }
    exists (notes1 ++ notes2), w'. rewrite <- app_assoc.
    split; [done|]. split; [congruence|]. split; [congruence|]. split.
    + rewrite map_app, Hn1, Hn2. f_equal.
      unfold loadableNames. apply flat_map_ext. intros d.
      rewrite Hd1. destruct (os.lookupDir d (dirs w)); [|done].
      f_equal. apply list_filter_iff. intros f. by rewrite (loadable_dirs _ _ _ _ Hd1).
    + apply Forall_app. split.
      * eapply Forall_impl; [exact Hall1|].
        intros n. apply loadedFrom_mono.
        intros d Hd%list_elem_of_singleton. subst d. by left.
      * eapply Forall_impl; [exact Hall2|].
        intros n (d & c & ? & Hf & ?). exists d, c.
        rewrite <- (fileData_dirs _ _ _ _ Hd1). split; [by right|done].
Qed.

Lemma listDirsLoop_unreadable m ds acc w :
  ¬ Forall (λ dir, is_Some (os.lookupDir dir (dirs w))) ds →
  ∃ e w', listDirsLoop m ds acc w = (Err e, w').
Proof.
  revert acc w; induction ds as [|dir rest IH]; intros acc w Hdirs; simpl.
  - destruct Hdirs. constructor.
  - unfold mbind, io_bind, os.ReadDir.
    destruct (os.lookupDir dir (dirs w)) as [entries|] eqn:Hdir; [|by eexists _, _].
    destruct (listFilesLoop_spec m dir (os.sortByName entries) acc w)
      as (notes1 & w1 & -> & Hd1 & _).
    apply IH. rewrite Hd1. intros H. apply Hdirs. constructor; [by eexists|done].
Qed.

(** *** The file-name invariant, operation by operation *)

Lemma CreateNote_filenameInvariant m title content tags format w note w' :
  CreateNote m title content tags format w = (Ok note, w') →
  filenameInvariant note.
Proof. intros H. by apply CreateNote_Ok in H as (fmt & -> & _). Qed.

Lemma ListNotes_filenameInvariant m w notes w' :
  ListNotes m w = (Ok notes, w') → Forall filenameInvariant notes.
Proof.
  unfold ListNotes. intros H.
  destruct (decide (Forall (λ dir, is_Some (os.lookupDir dir (dirs w))) (notesDirs m)))
    as [Hdirs|Hdirs].
  - destruct (listDirsLoop_spec m (notesDirs m) [] w Hdirs)
      as (ns & w1 & Hrun & _ & _ & _ & Hall).
    rewrite Hrun in H. injection H as <- <-. simpl.
    eapply Forall_impl; [exact Hall|]. by intros n (? & ? & ? & ? & ? & ?).
  - destruct (listDirsLoop_unreadable m (notesDirs m) [] w Hdirs) as (e & w1 & Hrun).
    congruence.
Qed.

(** A note that [GetNote] returns keeps the invariant exactly when the
    matched file name has an extension. *)
Lemma GetNote_filenameInvariant m id w note w' :
  GetNote m id w = (Ok note, w') →
  filenameInvariant note ↔ filepath.Ext (Filename note) ≠ [].
Proof.
  unfold GetNote. destruct (notesDirs m) as [|dir ds]; [done|].
  unfold mbind, io_bind. destruct (os.ReadDir dir w) as [[files|e] w1]; [|done].
  rewrite getNoteLoop_find. destruct (find (matchesID id) files) as [file|]; [|done].
  intros Hrun.
  pose proof (loadNoteFromFile_spec m dir (Name file) w1) as Hload.
  destruct (fileData dir (Name file) w1).
  - destruct Hload as (n & w2 & Hrun' & _ & _ & Hname & Hid & Hfmt & _).
    assert (n = note) as -> by congruence.
    unfold filenameInvariant. rewrite Hid, Hfmt, Hname. split.
    + intros Heq Hext. by apply (name_split_no_ext (Name file)).
    + apply name_split_invariant.
  - destruct Hload as (e & Hrun'). congruence.
Qed.

(** *** Splitting and joining *)

Lemma Split_nonempty (s : gostring) (sep : ascii) : strings.Split s sep ≠ [].
Proof.
  destruct s as [|c s]; simpl; [done|].
  destruct (Ascii.eqb c sep); [done|]. by destruct (strings.Split s sep).
Qed.

Lemma Split_cons_ne (c : ascii) (s : gostring) (sep : ascii) :
  Ascii.eqb c sep = false →
  ∃ piece pieces, strings.Split s sep = piece :: pieces
                  ∧ strings.Split (c :: s) sep = (c :: piece) :: pieces.
Proof.
  intros Hc. simpl. rewrite Hc.
  destruct (strings.Split s sep) as [|piece pieces] eqn:E.
  - by destruct (Split_nonempty s sep).
  - by exists piece, pieces.
Qed.

Lemma Split_app_sep (a b : gostring) (sep : ascii) :
  strings.Split (a ++ sep :: b) sep = strings.Split a sep ++ strings.Split b sep.
Proof.
  induction a as [|c a IH].
  - simpl. by rewrite Ascii.eqb_refl.
  - destruct (Ascii.eqb c sep) eqn:Hc.
    + simpl. rewrite Hc. by rewrite IH.
    + destruct (Split_cons_ne c a sep Hc) as (p & ps & Hs & ->).
      simpl. rewrite Hc, IH, Hs. done.
Qed.



Lemma Join_cons (e : gostring) (rest : list gostring) (sep : gostring) :
  rest ≠ [] → strings.Join (e :: rest) sep = e ++ sep ++ strings.Join rest sep.
Proof. by destruct rest. Qed.

Lemma Join_Split (s : gostring) (sep : ascii) :
  strings.Join (strings.Split s sep) [sep] = s.
Proof.
  induction s as [|c s IH]; simpl; [done|].
  destruct (Ascii.eqb c sep) eqn:Hc.
  - apply Ascii.eqb_eq in Hc as ->.
    rewrite Join_cons by apply Split_nonempty. simpl. by rewrite IH.
  - destruct (strings.Split s sep) as [|p ps] eqn:E.
    + by destruct (Split_nonempty s sep).
    + rewrite <- IH. destruct ps; simpl; done.
Qed.

Lemma Join_lines (ls : list gostring) (l : gostring) (post : list gostring) :
  strings.Join (ls ++ l :: post) newline = linesText ls ++ strings.Join (l :: post) newline.
Proof.
  induction ls as [|x ls IH]; [done|].
  rewrite <- app_comm_cons, Join_cons by (by destruct ls).
  rewrite IH. unfold linesText; simpl. by rewrite <- !app_assoc.
Qed.

Lemma drop_linesText (ls : list gostring) (s : gostring) :
  drop (length (linesText ls)) (linesText ls ++ s) = s.
Proof. by rewrite drop_app_length. Qed.

(** *** White space *)

Lemma trimLeft_length (s : gostring) : (length (strings.trimLeft s) ≤ length s)%nat.
Proof.
  induction s as [|c s IH]; simpl; [done|].
  destruct (strings.isSpace c); simpl; lia.
Qed.

Lemma trimLeft_suffix (s : gostring) : ∃ ws, s = ws ++ strings.trimLeft s.
Proof.
  induction s as [|c s [ws IH]]; simpl; [by exists []|].
  destruct (strings.isSpace c).
  - exists (c :: ws). simpl. by rewrite <- IH.
  - by exists [].
Qed.

Lemma trimLeft_fixed (s : gostring) :
  length (strings.trimLeft s) = length s → strings.trimLeft s = s.
Proof.
  intros H. destruct (trimLeft_suffix s) as [ws Hws].
  apply (f_equal length) in Hws as Hlen. rewrite length_app in Hlen.
  destruct ws; [simpl in Hws; congruence|simpl in Hlen; lia].
Qed.


Lemma trimLeft_nonspace (c : ascii) (s : gostring) :
  strings.isSpace c = false → strings.trimLeft (c :: s) = c :: s.
Proof. intros H. simpl. by rewrite H. Qed.

Lemma trimLeft_app_nonspace (x : gostring) (c : ascii) (y : gostring) :
  strings.isSpace c = false →
  strings.trimLeft (x ++ c :: y) = strings.trimLeft (x ++ [c]) ++ y.
Proof.
  intros Hc. induction x as [|d x IH]; simpl.
  - by rewrite Hc.
  - destruct (strings.isSpace d); [done|]. simpl. by rewrite <- app_assoc.
Qed.

Lemma trimLeft_snoc_ne (x : gostring) (c : ascii) :
  strings.isSpace c = false → strings.trimLeft (x ++ [c]) ≠ [].
Proof.
  intros Hc. induction x as [|d x IH]; simpl.
  - by rewrite Hc.
  - by destruct (strings.isSpace d).
Qed.

Lemma TrimSpace_unfold (s : gostring) :
  strings.TrimSpace s = trimRight (strings.trimLeft s).
Proof. reflexivity. Qed.

Lemma trimRight_length (s : gostring) : (length (trimRight s) ≤ length s)%nat.
Proof.
  unfold trimRight. rewrite length_rev.
  etrans; [apply trimLeft_length|]. by rewrite length_rev.
Qed.


Lemma trimRight_prefix (s : gostring) : ∃ ws, s = trimRight s ++ ws.
Proof.
  unfold trimRight. destruct (trimLeft_suffix (rev s)) as [ws Hws].
  exists (rev ws). rewrite <- rev_app_distr, <- Hws. by rewrite rev_involutive.
Qed.

Lemma trimRight_fixed (s : gostring) :
  length (trimRight s) = length s → trimRight s = s.
Proof.
  intros H. destruct (trimRight_prefix s) as [ws Hws].
  apply (f_equal length) in Hws as Hlen. rewrite length_app in Hlen.
  destruct ws; [rewrite app_nil_r in Hws; congruence|simpl in Hlen; lia].
Qed.

(** The text before a byte that is not white space survives trimming on
    the right. *)
Lemma trimRight_app_nonspace (s : gostring) (c : ascii) (r : gostring) :
  strings.isSpace c = false →
  trimRight (s ++ c :: r) = s ++ trimRight (c :: r).
Proof.
  intros Hc. unfold trimRight.
  rewrite rev_app_distr. simpl. rewrite <- app_assoc. simpl.
  rewrite (trimLeft_app_nonspace (rev r) c (rev s) Hc), rev_app_distr.
  by rewrite rev_involutive.
Qed.

Lemma trimLeft_snoc (x : gostring) (c : ascii) :
  strings.isSpace c = false → ∃ t, strings.trimLeft (x ++ [c]) = t ++ [c].
Proof.
  intros Hc. induction x as [|d x IH]; simpl.
  - rewrite Hc. by exists [].
  - destruct (strings.isSpace d); [done|]. by exists (d :: x).
Qed.

Lemma trimRight_nonspace_ne (c : ascii) (r : gostring) :
  strings.isSpace c = false → ∃ r', trimRight (c :: r) = c :: r'.
Proof.
  intros Hc. unfold trimRight. simpl.
  destruct (trimLeft_snoc (rev r) c Hc) as [t Ht].
  rewrite Ht, rev_app_distr. simpl. by eexists.
Qed.

(** A string that [TrimSpace] leaves alone is left alone by both of its
    halves. *)
Lemma TrimSpace_fixed (s : gostring) :
  strings.TrimSpace s = s → strings.trimLeft s = s ∧ trimRight s = s.
Proof.
  rewrite TrimSpace_unfold. intros H.
  assert (strings.trimLeft s = s) as Hl.
  { apply trimLeft_fixed. apply (f_equal length) in H.
    pose proof (trimRight_length (strings.trimLeft s)).
    pose proof (trimLeft_length s). lia. }
  split; [done|]. by rewrite Hl in H.
Qed.



(** Text that starts with a byte that is not white space and is followed
    by a trimmed, non-empty text is left alone by [TrimSpace]. *)
Lemma TrimSpace_app_fixed (c : ascii) (p t : gostring) :
  strings.isSpace c = false → t ≠ [] → strings.TrimSpace t = t →
  strings.TrimSpace (c :: p ++ t) = c :: p ++ t.
Proof.
  intros Hc Ht Hfix. rewrite TrimSpace_unfold, trimLeft_nonspace by done.
  apply TrimSpace_fixed in Hfix as [Hl Hr].
  destruct t as [|d t]; [done|].
  assert (strings.isSpace d = false) as Hd.
  { simpl in Hl. destruct (strings.isSpace d); [|done].
    pose proof (trimLeft_length t) as Hlen. rewrite Hl in Hlen. simpl in Hlen. lia. }
  change (c :: p ++ d :: t) with ((c :: p) ++ d :: t).
  by rewrite trimRight_app_nonspace, Hr.
Qed.

Lemma spaceFree_TrimSpace (s : gostring) : spaceFree s → strings.TrimSpace s = s.
Proof.
  intros Hs. rewrite TrimSpace_unfold.
  assert (∀ x, spaceFree x → strings.trimLeft x = x) as Hleft.
  { intros [|c x] Hx; [done|]. apply Forall_cons in Hx as [Hc _].
    by apply trimLeft_nonspace. }
  rewrite (Hleft s Hs). unfold trimRight.
  rewrite Hleft; [by rewrite rev_involutive|].
  unfold spaceFree. by apply Forall_rev.
Qed.

(** *** The plain dialect *)

Lemma txtMetaOrBlank_false (line : gostring) :
  txtMetaOrBlank line = false →
  strings.HasPrefix line (lit "Title:") = false
  ∧ strings.HasPrefix line (lit "Tags:") = false
  ∧ (strings.HasPrefix line (lit "Created:")
     || strings.HasPrefix line (lit "Modified:")) = false
  ∧ eqs line [] = false.
Proof.
  unfold txtMetaOrBlank, txtLabelled. intros H.
  repeat match goal with
         | H : _ || _ = false |- _ => apply orb_false_elim in H as [? ?]
         end.
  repeat split; try done. by apply orb_false_intro.
Qed.

(** The loop passes over labelled and empty lines without touching the
    content. *)
Lemma parseTxtLoop_skip content ms rest title c tags :
  Forall (λ x, txtMetaOrBlank x = true) ms →
  ∃ title' tags',
    parseTxtLoop content (ms ++ rest) title c tags
    = parseTxtLoop content rest title' c tags'.
Proof.
  intros Hms. revert title tags.
  induction Hms as [|m ms Hm _ IH]; intros title tags; [by eexists _, _|].
  cbn [app parseTxtLoop].
  destruct (strings.HasPrefix m (lit "Title:")) eqn:E1; [apply IH|].
  destruct (strings.HasPrefix m (lit "Tags:")) eqn:E2; [apply IH|].
  destruct (strings.HasPrefix m (lit "Created:") || strings.HasPrefix m (lit "Modified:"))
    eqn:E3; [apply IH|].
  destruct (eqs m []) eqn:E4; [apply IH|].
  unfold txtMetaOrBlank, txtLabelled in Hm.
  apply orb_false_elim in E3 as [E3 E3'].
  rewrite E1, E2, E3, E3', E4 in Hm. discriminate.
Qed.

(** At the first line that is neither labelled nor empty the loop stops
    and cuts the content at the first occurrence of that line's text. *)
Lemma parseTxtLoop_content content l post title c tags :
  txtMetaOrBlank l = false →
  parseTxtLoop content (l :: post) title c tags =
  match strings.Index content l with
  | Some contentStart => (title, strings.TrimSpace (drop contentStart content), tags)
  | None => (title, c, tags)
  end.
Proof.
  intros H. apply txtMetaOrBlank_false in H as (H1 & H2 & H3 & H4).
  cbn [parseTxtLoop]. by rewrite H1, H2, H3, H4.
Qed.

(** *** Trimming the pieces of a split *)

Lemma trimLeft_suffix_spaces (s : gostring) :
  ∃ ws, s = ws ++ strings.trimLeft s ∧ allSpace ws.
Proof.
  induction s as [|c s (ws & IH & Hws)]; simpl.
  { exists []. split; [done|constructor]. }
  destruct (strings.isSpace c) eqn:E.
  - exists (c :: ws). split; [simpl; by rewrite <- IH|by constructor].
  - exists []. split; [done|constructor].
Qed.

Lemma trimRight_prefix_spaces (s : gostring) :
  ∃ ws, s = trimRight s ++ ws ∧ allSpace ws.
Proof.
  unfold trimRight. destruct (trimLeft_suffix_spaces (rev s)) as (ws & Hs & Hws).
  exists (rev ws). split; [|by apply Forall_rev].
  by rewrite <- rev_app_distr, <- Hs, rev_involutive.
Qed.












(** *** Formatted times *)







(** *** The plain dialect, written and read back *)













(** *** Fields *)

Lemma Fields_spec (s : gostring) :
  Forall (λ t, t ≠ [] ∧ spaceFree t) (strings.Fields s).
Proof.
  induction s as [|c s IH]; simpl; [constructor|].
  destruct (strings.isSpace c) eqn:Hc; [done|].
  destruct s as [|d s']; [by repeat constructor|].
  destruct (strings.isSpace d) eqn:Hd; [by repeat constructor|].
  destruct (strings.Fields (d :: s')) as [|f fs]; [by repeat constructor|].
  apply Forall_cons in IH as [[_ Hf] Hfs].
  constructor; [|done]. split; [done|by constructor].
Qed.

Lemma Fields_allSpace (ws : gostring) : allSpace ws → strings.Fields ws = [].
Proof. induction 1 as [|c ws Hc _ IH]; simpl; [done|]. by rewrite Hc. Qed.

Lemma Fields_spaces_app (ws x : gostring) :
  allSpace ws → strings.Fields (ws ++ x) = strings.Fields x.
Proof. induction 1 as [|c ws Hc _ IH]; simpl; [done|]. by rewrite Hc. Qed.

Lemma Fields_app_spaces (x ws : gostring) :
  allSpace ws → strings.Fields (x ++ ws) = strings.Fields x.
Proof.
  intros Hws. induction x as [|c x IH].
  - simpl. by apply Fields_allSpace.
  - cbn [app strings.Fields]. rewrite IH.
    destruct (strings.isSpace c); [done|].
    destruct x as [|d x]; [|done].
    simpl. destruct Hws as [|w ws Hw Hws]; [done|]. by rewrite Hw.
Qed.





(** *** Tags of the outline dialect *)

Lemma ReplaceAll_colon (s : gostring) :
  strings.ReplaceAll s (lit ":") (lit " ") = map colonToSpace s.
Proof. apply ReplaceAll_byte_map. Qed.

Lemma colonToSpace_spaces (ws : gostring) : allSpace ws → allSpace (map colonToSpace ws).
Proof.
  induction 1 as [|c ws Hc _ IH]; simpl; constructor; [|done].
  unfold colonToSpace. by destruct (Ascii.eqb ":" c).
Qed.

(** Trimming a tag line does not change its tokens. *)
Lemma tagTokens_TrimSpace (s : gostring) :
  tagTokens (strings.TrimSpace s) = tagTokens s.
Proof.
  destruct (trimLeft_suffix_spaces s) as (ws1 & Hs1 & Hws1).
  destruct (trimRight_prefix_spaces (strings.trimLeft s)) as (ws2 & Hs2 & Hws2).
  rewrite TrimSpace_unfold. unfold tagTokens.
  rewrite Hs1 at 2. rewrite Hs2 at 2. rewrite !map_app.
  rewrite Fields_spaces_app by (by apply colonToSpace_spaces).
  by rewrite Fields_app_spaces by (by apply colonToSpace_spaces).
Qed.

Lemma addTags_fold (ts : list gostring) (S : gset gostring) :
  Forall (λ t, t ≠ [] ∧ spaceFree t) ts →
  foldl (λ set t,
           if eqs t [] then set
           else let t := strings.TrimSpace t in
                if eqs t [] then set else {[ t ]} ∪ set) S ts
  = list_to_set ts ∪ S.
Proof.
  intros Hts. revert S. induction Hts as [|t ts [Hne Ht] _ IH]; intros S; simpl.
  - set_solver.
  - rewrite IH. cbv zeta. rewrite spaceFree_TrimSpace by done.
    unfold eqs. rewrite bool_decide_eq_false_2 by done. set_solver.
Qed.

(** [addTags] adds the tokens of the line to the set. *)
Lemma addTags_spec (tagLine : gostring) (S : gset gostring) :
  addTags tagLine S = list_to_set (tagTokens tagLine) ∪ S.
Proof.
  unfold addTags. rewrite <- (tagTokens_TrimSpace tagLine).
  unfold eqs. case_bool_decide as Hempty.
  - rewrite Hempty. set_solver.
  - rewrite ReplaceAll_colon. apply addTags_fold, Fields_spec.
Qed.

(** *** Lines of the outline dialect *)

(** A line that starts with text ending in a byte that is not white
    space keeps that text when trimmed, and loses only white space at its
    end. *)
Lemma TrimSpace_directive (c : ascii) (p : gostring) (d : ascii) (x : gostring) :
  strings.isSpace c = false → strings.isSpace d = false →
  ∃ r ws, strings.TrimSpace (c :: p ++ d :: x) = c :: p ++ d :: r
          ∧ x = r ++ ws ∧ allSpace ws.
Proof.
  intros Hc Hd. rewrite TrimSpace_unfold, trimLeft_nonspace by done.
  change (c :: p ++ d :: x) with ((c :: p) ++ d :: x).
  rewrite trimRight_app_nonspace by done.
  destruct (trimRight_nonspace_ne d x Hd) as [r Hr].
  destruct (trimRight_prefix_spaces (d :: x)) as (ws & Hx & Hws).
  rewrite Hr in Hx |- *. exists r, ws. simpl in Hx. by injection Hx as ->.
Qed.




Lemma parseOrgLine_FILETAGS i x st :
  parseOrgLine i (lit "#+FILETAGS:" ++ x) st
  = mkOrgScan (orgTitle st) (list_to_set (tagTokens x) ∪ orgTags st) (contentStart st).
Proof.
  destruct (TrimSpace_directive "#" (lit "+FILETAGS") ":" x eq_refl eq_refl)
    as (r & ws & Htrim & -> & Hws).
  unfold parseOrgLine.
  change (lit "#+FILETAGS:" ++ r ++ ws)
    with ("#"%char :: lit "+FILETAGS" ++ ":"%char :: r ++ ws).
  rewrite Htrim. cbv zeta.
  change (strings.HasPrefix (strings.ToUpper ("#"%char :: lit "+FILETAGS" ++ ":"%char :: r))
                            (lit "#+TITLE:")) with false.
  change (strings.HasPrefix (strings.ToUpper ("#"%char :: lit "+FILETAGS" ++ ":"%char :: r))
                            (lit "#+FILETAGS:")) with true.
  cbv iota.
  change (drop (length (lit "#+FILETAGS:")) ("#"%char :: lit "+FILETAGS" ++ ":"%char :: r))
    with r.
  rewrite addTags_spec. f_equal. f_equal. f_equal.
  unfold tagTokens. rewrite map_app.
  by rewrite Fields_app_spaces by (by apply colonToSpace_spaces).
Qed.




(** *** The scan of the outline dialect, line by line *)

Lemma addTags_union (tagLine : gostring) (S : gset gostring) :
  addTags tagLine S = addTags tagLine ∅ ∪ S.
Proof. rewrite !addTags_spec. set_solver. Qed.

(** What a line does to the variables of the scan depends on the line
    alone: a non-empty title replaces the title, the tags are added, and
    the line starts the content if none has started. *)
Lemma parseOrgLine_decomp i raw st :
  orgTitle (parseOrgLine i raw st)
  = (if eqs (lineTitle raw) [] then orgTitle st else lineTitle raw)
  ∧ orgTags (parseOrgLine i raw st) = lineTags raw ∪ orgTags st
  ∧ contentStart (parseOrgLine i raw st)
    = match contentStart st with
      | Some k => Some k
      | None => if startsContent raw then Some i else None
      end.
Proof.
  unfold lineTitle, lineTags, startsContent, parseOrgLine. cbv zeta.
  destruct (strings.HasPrefix (strings.ToUpper (strings.TrimSpace raw)) (lit "#+TITLE:")).
  { destruct (eqs (strings.TrimSpace (drop (length (lit "#+TITLE:"))
                                           (strings.TrimSpace raw))) []) eqn:E;
      simpl in *; rewrite ?E.
    - split; [done|]. split; [set_solver|]. by destruct (contentStart st).
    - split; [done|]. split; [set_solver|]. by destruct (contentStart st). }
  destruct (strings.HasPrefix (strings.ToUpper (strings.TrimSpace raw)) (lit "#+FILETAGS:")).
  { simpl. split; [done|]. split; [apply addTags_union|]. by destruct (contentStart st). }
  destruct (strings.HasPrefix (strings.ToUpper (strings.TrimSpace raw)) (lit "#+TAGS:")).
  { simpl. split; [done|]. split; [apply addTags_union|]. by destruct (contentStart st). }
  match goal with
  | |- context [mkOrgScan _ ?tags None] =>
      match tags with
      | context [orgTags orgScanInit] => set (g0 := tags)
      end
  end.
  match goal with
  | |- context [mkOrgScan (orgTitle st) ?tags _] => set (g := tags)
  end.
  assert (g = g0 ∪ orgTags st) as Hg.
  { subst g g0.
    destruct (strings.HasPrefix (strings.TrimSpace raw) (lit "*")); [|set_solver].
    destruct (strings.LastIndex (strings.TrimSpace raw) (lit " ")); [|set_solver].
    destruct (_ <? _)%nat; [|set_solver].
    destruct (_ && _); [apply addTags_union|set_solver]. }
  clearbody g g0.
  cbn [contentStart orgTitle orgTags orgScanInit].
  destruct (contentStart st);
    destruct (eqs (strings.TrimSpace raw) []);
    try destruct (strings.HasPrefix (strings.TrimSpace (strings.TrimSpace raw)) (lit "#+"));
    cbn [contentStart orgTitle orgTags orgScanInit]; done.
Qed.

Lemma parseOrgLoop_app i xs ys st :
  parseOrgLoop i (xs ++ ys) st
  = parseOrgLoop (i + length xs) ys (parseOrgLoop i xs st).
Proof.
  revert i st; induction xs as [|x xs IH]; intros i st; simpl.
  - by rewrite Nat.add_0_r.
  - rewrite IH. f_equal. lia.
Qed.

Lemma parseOrgLoop_title i lines st :
  orgTitle (parseOrgLoop i lines st) = foldl titleStep (orgTitle st) lines.
Proof.
  revert i st; induction lines as [|raw rest IH]; intros i st; simpl; [done|].
  rewrite IH. by destruct (parseOrgLine_decomp i raw st) as (-> & _).
Qed.

Lemma parseOrgLoop_tags i lines st :
  orgTags (parseOrgLoop i lines st) = ⋃ (lineTags <$> lines) ∪ orgTags st.
Proof.
  revert i st; induction lines as [|raw rest IH]; intros i st; simpl.
  - set_solver.
  - rewrite IH. destruct (parseOrgLine_decomp i raw st) as (_ & -> & _). set_solver.
Qed.

Lemma parseOrgLoop_start i lines st :
  contentStart (parseOrgLoop i lines st)
  = match contentStart st with
    | Some k => Some k
    | None => firstContentLine i lines
    end.
Proof.
  revert i st; induction lines as [|raw rest IH]; intros i st; simpl.
  - by destruct (contentStart st).
  - rewrite IH. destruct (parseOrgLine_decomp i raw st) as (_ & _ & ->).
    destruct (contentStart st); [done|]. by destruct (startsContent raw).
Qed.

Lemma foldl_titleStep (t0 : gostring) (lines : list gostring) :
  foldl titleStep t0 lines
  = if eqs (foldl titleStep [] lines) [] then t0 else foldl titleStep [] lines.
Proof.
  revert t0; induction lines as [|raw rest IH]; intros t0; simpl; [done|].
  rewrite (IH (titleStep t0 raw)), (IH (titleStep [] raw)).
  destruct (eqs (foldl titleStep [] rest) []) eqn:E0; [|by rewrite E0].
  unfold titleStep.
  destruct (eqs (lineTitle raw) []) eqn:E; [done|by rewrite E].
Qed.

Lemma firstContentLine_bound i lines k :
  firstContentLine i lines = Some k → (i ≤ k < i + length lines)%nat.
Proof.
  revert i; induction lines as [|raw rest IH]; intros i; simpl; [done|].
  destruct (startsContent raw); [intros [= <-]; lia|].
  intros H%IH. lia.
Qed.

Lemma firstContentLine_app i xs ys k :
  firstContentLine i xs = Some k → firstContentLine i (xs ++ ys) = Some k.
Proof.
  revert i; induction xs as [|x xs IH]; intros i; simpl; [done|].
  destruct (startsContent x); [done|apply IH].
Qed.

Lemma firstContentLine_skip i xs ys :
  Forall (λ x, startsContent x = false) xs →
  firstContentLine i (xs ++ ys) = firstContentLine (i + length xs) ys.
Proof.
  intros Hxs. revert i. induction Hxs as [|x xs Hx _ IH]; intros i; simpl.
  - by rewrite Nat.add_0_r.
  - rewrite Hx, IH. f_equal. lia.
Qed.

Lemma Join_app (xs ys : list gostring) (sep : gostring) :
  xs ≠ [] → ys ≠ [] →
  strings.Join (xs ++ ys) sep = strings.Join xs sep ++ sep ++ strings.Join ys sep.
Proof.
  intros Hxs Hys. induction xs as [|x xs IH]; [done|].
  destruct xs as [|x2 xs].
  - simpl. by destruct ys.
  - rewrite <- app_comm_cons. rewrite !Join_cons by done.
    rewrite IH by done. by rewrite <- !app_assoc.
Qed.

Lemma parseOrgScan_unfold (s : gostring) :
  parseOrgScan s
  = (foldl titleStep [] (strings.Split s byteLF),
     match firstContentLine 0 (strings.Split s byteLF) with
     | Some k => strings.TrimSpace (strings.Join (drop k (strings.Split s byteLF)) newline)
     | None => []
     end,
     ⋃ (lineTags <$> strings.Split s byteLF)).
Proof.
  unfold parseOrgScan. cbv zeta.
  rewrite parseOrgLoop_title, parseOrgLoop_tags, parseOrgLoop_start. simpl.
  f_equal. set_solver.
Qed.

Lemma parseOrgNote_scan (s : gostring) :
  parseOrgNote s = (orgTitleOf s, orgContentOf s, elements (orgTagsOf s)).
Proof.
  unfold parseOrgNote, orgTitleOf, orgContentOf, orgTagsOf.
  by destruct (parseOrgScan s) as [[t c] g].
Qed.

(** *** The outline dialect, written and read back *)









(** The start of the content is looked up as the first occurrence of the
    text of its first line: when the title holds that text, the content
    returned starts inside the title line. *)
Lemma parseTxtNote_text_in_title :
  parseTxtNote (formatTxtNote helloNote)
  = (lit "Hello",
     lit "Hello" ++ newline ++ lit "Created: 2024-12-01 14:30:22" ++ newline
     ++ lit "Modified: 2024-12-01 14:30:22" ++ newline ++ newline ++ lit "Hello",
     []).
Proof. by vm_compute. Qed.

(** ** The claims *)






(** C10: [GetNote] matches by file-name prefix: it loads the first regular
    file of the primary directory, in listing order, whose name starts
    with the identifier, and reports not-found only when there is none.
    So with the notes "plan" and "plan-b" of one second, where the first
    identifier is a proper prefix of the second and the file of the
    second is listed first, [GetNote], [UpdateNote] and [DeleteNote]
    called with the shorter identifier act on the other note. *)
Theorem C10_GetNote_matches_by_prefix :
  (∀ m id w,
      GetNote m id w =
      match notesDirs m with
      | [] => (Err panicIndexOutOfRange, w)
      | dir :: _ =>
          match os.lookupDir dir (dirs w) with
          | None => (Err (errWrap "failed to read notes directory" (errReadDir dir)), w)
          | Some entries =>
              match find (matchesID id) (os.sortByName entries) with
              | Some file => loadNoteFromFile m dir (Name file) w
              | None => (Err (errNotFound id), w)
              end
          end
      end)
  ∧ (strings.HasPrefix idPlanB idPlan = true ∧ idPlan ≠ idPlanB
     ∧ listing notesDir planWorld
       = Some [idPlanB ++ lit ".txt"; idPlan ++ lit ".txt"]
     ∧ noteOf ID (GetNote theManager idPlan planWorld).1 = Some idPlanB
     ∧ (let '(r, w') := UpdateNote theManager idPlan (lit "plan") (lit "edited") []
                                   planWorld in
        noteOf ID r = Some idPlanB
        ∧ fileData notesDir (idPlan ++ lit ".txt") w'
          = fileData notesDir (idPlan ++ lit ".txt") planWorld
        ∧ fileData notesDir (idPlanB ++ lit ".txt") w'
          ≠ fileData notesDir (idPlanB ++ lit ".txt") planWorld)
     ∧ (let '(r, w') := DeleteNote theManager idPlan planWorld in
        r = Ok () ∧ listing notesDir w' = Some [idPlan ++ lit ".txt"])).
Proof.
  split.
  - intros m id w. unfold GetNote.
    destruct (notesDirs m) as [|dir ds]; [done|].
    unfold mbind, io_bind, os.ReadDir.
    destruct (os.lookupDir dir (dirs w)); [|done].
    apply getNoteLoop_find.
  - repeat split; try (vm_compute; done).
Qed.

(** C2, as stated, fails: in a directory with three well-formed notes and
    one file of garbage named "20241201_120000_junk.txt", [ListNotes]
    returns four notes, the garbage file among them. *)
Lemma C2_counterexample :
  ∃ notes w',
    ListNotes theManager mixedWorld = (Ok notes, w')
    ∧ length notes = 4%nat
    ∧ map Filename notes !! 3%nat = Some (lit "20241201_120000_junk.txt")
    ∧ map Content notes !! 3%nat = Some (strings.TrimSpace garbage).
Proof. eexists _, _. by vm_compute. Qed.

(** C2, amended: when every configured directory can be read, [ListNotes]
    succeeds and returns, directory by directory and in listing order,
    one note for every regular file with a recognized extension whose
    bytes can be read, whatever these bytes are: each is decoded by the
    parser of its dialect, which never fails, so a file of garbage yields
    a note too; only files that cannot be read are left out. *)
Theorem C2_ListNotes_decodes_every_readable_file m w :
  Forall (λ dir, is_Some (os.lookupDir dir (dirs w))) (notesDirs m) →
  ∃ notes w',
    ListNotes m w = (Ok notes, w')
    ∧ map Filename notes = loadableNames w (notesDirs m)
    ∧ Forall (loadedFrom w (notesDirs m)) notes.
Proof.
  intros Hdirs. unfold ListNotes.
  destruct (listDirsLoop_spec m (notesDirs m) [] w Hdirs)
    as (notes & w' & Hrun & _ & _ & Hnames & Hall).
  by exists notes, w'.
Qed.

Lemma C2_ListNotes_decodes_every_readable_file_witness :
  ∃ notes w',
    ListNotes theManager mixedWorld = (Ok notes, w')
    ∧ map Filename notes = loadableNames mixedWorld (notesDirs theManager)
    ∧ Forall (loadedFrom mixedWorld (notesDirs theManager)) notes.
Proof.
  apply (C2_ListNotes_decodes_every_readable_file theManager mixedWorld).
  repeat constructor. vm_compute. by eexists.
Defined.

(** C9 fails on the code: in a directory that also holds a file without
    extension, [GetNote] (and [UpdateNote] after it) matches that file
    and returns a note whose format is empty and whose file name is its
    identifier, not the identifier followed by a dot and the format.
    [ListNotes] filters on the extension before loading; [GetNote] does
    not. *)
Theorem C9_GetNote_breaks_filename_invariant :
  ∃ note w' updated w'',
    GetNote theManager (lit "20241201_143022_todo") strayWorld = (Ok note, w')
    ∧ ID note = lit "20241201_143022_todo"
    ∧ Format note = []
    ∧ Filename note = lit "20241201_143022_todo"
    ∧ ¬ filenameInvariant note
    ∧ UpdateNote theManager (lit "20241201_143022_todo") (lit "todo") (lit "buy tea") []
                 strayWorld = (Ok updated, w'')
    ∧ ¬ filenameInvariant updated.
Proof.
  eexists _, _, _, _.
  split; [vm_compute; reflexivity|].
  split; [reflexivity|]. split; [reflexivity|]. split; [reflexivity|].
  split; [vm_compute; discriminate|].
  split; [vm_compute; reflexivity|].
  vm_compute; discriminate.
Qed.

(** C1 fails on the code at the lower bound of the window: the test is
    [After(start) && Before(end)], so a note created at midnight of the
    queried date is left out of a search for "2024-12-01", although the
    fallback path (here the query "2024-12") finds it.  The upper bound is
    as claimed: the note of 23:59:59 is returned for "2024-12-01" and not
    for "2024-12-02". *)
Theorem C1_SearchByDate_excludes_midnight :
  notesOf ID (ListNotes theManager dayWorld).1
  = Some [lit "20241201_000000_midnight"; lit "20241201_235959_late"]
  ∧ notesOf ID (SearchByDate theManager (lit "2024-12-01") dayWorld).1
    = Some [lit "20241201_235959_late"]
  ∧ notesOf ID (SearchByDate theManager (lit "2024-12-02") dayWorld).1 = Some []
  ∧ notesOf ID (SearchByDate theManager (lit "2024-12") dayWorld).1
    = Some [lit "20241201_000000_midnight"; lit "20241201_235959_late"].
Proof. repeat split; by vm_compute. Qed.

(** C5, as stated, fails: the content is not the lines verbatim, white
    space around it is trimmed.  In the text below the first line that is
    neither labelled nor empty is "  indented" and the last line is empty,
    and the content returned is "indented", a line break, "end". *)
Lemma C5_counterexample :
  let input := lit "Title: t" ++ newline ++ newline
               ++ lit "  indented" ++ newline ++ lit "end" ++ newline in
  let ms := [lit "Title: t"; []] in
  let l := lit "  indented" in
  let post := [lit "end"; []] in
  strings.Split input byteLF = ms ++ l :: post
  ∧ Forall (λ x, txtMetaOrBlank x = true) ms
  ∧ txtMetaOrBlank l = false
  ∧ (parseTxtNote input).1.2 ≠ strings.Join (l :: post) newline
  ∧ (parseTxtNote input).1.2 = lit "indented" ++ newline ++ lit "end".
Proof.
  cbv zeta. split; [reflexivity|]. split; [by repeat constructor|].
  split; [reflexivity|]. split; [by vm_compute|reflexivity].
Qed.

(** C5, amended: in [parseTxtNote] the first line that is neither empty
    nor led by one of the four case-sensitive labels starts the content;
    when the text of that line does not occur earlier in the input, the
    content returned is that line and all the lines after it, whatever
    they look like, joined as they were and with the white space at both
    ends of the whole trimmed. *)
Theorem C5_parseTxtNote_content input ms l post :
  strings.Split input byteLF = ms ++ l :: post →
  Forall (λ x, txtMetaOrBlank x = true) ms →
  txtMetaOrBlank l = false →
  strings.Index input l = Some (length (linesText ms)) →
  (parseTxtNote input).1.2 = strings.TrimSpace (strings.Join (l :: post) newline).
Proof.
  intros Hsplit Hms Hl Hindex. unfold parseTxtNote. rewrite Hsplit.
  destruct (parseTxtLoop_skip input ms (l :: post) [] [] [] Hms) as (t & g & ->).
  rewrite parseTxtLoop_content, Hindex by done. simpl.
  f_equal.
  rewrite <- (Join_Split input byteLF) at 1.
  rewrite Hsplit. change [byteLF] with newline.
  by rewrite Join_lines, drop_linesText.
Qed.

Lemma C5_parseTxtNote_content_witness :
  (parseTxtNote (lit "Title: t" ++ newline ++ lit "Tags: a, b" ++ newline ++ newline
                 ++ lit "first" ++ newline ++ lit "Tags: kept" ++ newline)).1.2
  = strings.TrimSpace (strings.Join [lit "first"; lit "Tags: kept"; []] newline).
Proof.
  apply (C5_parseTxtNote_content _ [lit "Title: t"; lit "Tags: a, b"; []]
           (lit "first") [lit "Tags: kept"; []]).
  - reflexivity.
  - by repeat constructor.
  - reflexivity.
  - reflexivity.
Defined.







(** C6, as stated, fails: directive lines after the start of the content
    are still read as metadata.  After the content line "body", a title
    directive, a tags directive and a heading with a tag block change the
    title from empty to "Late" and the tags from none to x and y. *)
Lemma C6_counterexample :
  orgContentStart (lit "body") = Some 0%nat
  ∧ (parseOrgNote (lit "body")).1.1 = []
  ∧ (parseOrgNote (lit "body")).2 = []
  ∧ (parseOrgNote (lit "body" ++ newline ++ lateDirectives)).1.1 = lit "Late"
  ∧ (∀ t, t ∈ (parseOrgNote (lit "body" ++ newline ++ lateDirectives)).2
          ↔ t ∈ [lit "x"; lit "y"]).
Proof.
  split; [by vm_compute|]. split; [by vm_compute|]. split; [by vm_compute|].
  split; [by vm_compute|].
  intros t. rewrite parseOrgNote_scan. cbn [snd]. rewrite elem_of_elements.
  replace (orgTagsOf (lit "body" ++ newline ++ lateDirectives))
    with (list_to_set [lit "x"; lit "y"] : gset gostring) by (by vm_compute).
  by rewrite elem_of_list_to_set.
Qed.

(** C6, amended: in [parseOrgNote], once a line of the text [a] has
    started the content, every line of a text [b] that follows is kept in
    the content as it is (the content is trimmed as a whole), and is
    still read as metadata: the title is the last non-empty title
    directive of the whole input, so a title directive in [b] replaces
    that of [a], and the tags are those of [a] together with those of
    [b]. *)
Theorem C6_parseOrgNote_scans_every_line (a b : gostring) (k : nat) :
  orgContentStart a = Some k →
  (parseOrgNote (a ++ newline ++ b)).1.1
  = (if eqs (parseOrgNote b).1.1 [] then (parseOrgNote a).1.1
     else (parseOrgNote b).1.1)
  ∧ (∀ t, t ∈ (parseOrgNote (a ++ newline ++ b)).2
          ↔ t ∈ (parseOrgNote a).2 ∨ t ∈ (parseOrgNote b).2)
  ∧ (parseOrgNote (a ++ newline ++ b)).1.2
    = strings.TrimSpace
        (strings.Join (drop k (strings.Split a byteLF)) newline ++ newline ++ b).
Proof.
  intros Hstart. unfold orgContentStart in Hstart.
  rewrite parseOrgLoop_start in Hstart. cbn [contentStart orgScanInit] in Hstart.
  rewrite !parseOrgNote_scan. cbn [fst snd].
  unfold orgTitleOf, orgContentOf, orgTagsOf. rewrite !parseOrgScan_unfold. cbn [fst snd].
  change (a ++ newline ++ b) with (a ++ byteLF :: b). rewrite Split_app_sep.
  split; [|split].
  - rewrite foldl_app. apply foldl_titleStep.
  - intros t. rewrite !elem_of_elements, fmap_app, union_list_app. set_solver.
  - rewrite (firstContentLine_app _ _ _ _ Hstart).
    apply firstContentLine_bound in Hstart.
    f_equal. rewrite drop_app_le by lia.
    rewrite Join_app.
    + change newline with [byteLF] at 3. by rewrite Join_Split.
    + intros Hnil%(f_equal length). rewrite length_drop in Hnil. simpl in Hnil. lia.
    + apply Split_nonempty.
Qed.

Lemma C6_parseOrgNote_scans_every_line_witness :
  (parseOrgNote (lit "body" ++ newline ++ lateDirectives)).1.1
  = (if eqs (parseOrgNote lateDirectives).1.1 [] then (parseOrgNote (lit "body")).1.1
     else (parseOrgNote lateDirectives).1.1)
  ∧ (∀ t, t ∈ (parseOrgNote (lit "body" ++ newline ++ lateDirectives)).2
          ↔ t ∈ (parseOrgNote (lit "body")).2 ∨ t ∈ (parseOrgNote lateDirectives).2)
  ∧ (parseOrgNote (lit "body" ++ newline ++ lateDirectives)).1.2
    = strings.TrimSpace
        (strings.Join (drop 0 (strings.Split (lit "body") byteLF)) newline
         ++ newline ++ lateDirectives).
Proof.
  apply (C6_parseOrgNote_scans_every_line (lit "body") lateDirectives 0).
  by vm_compute.
Defined.

(** ** Further properties of the package *)

(** *** The file system *)

Lemma eqs_refl (s : gostring) : eqs s s = true.
Proof. unfold eqs. by apply bool_decide_eq_true. Qed.

Lemma eqs_true (a b : gostring) : eqs a b = true → a = b.
Proof. unfold eqs. by intros ?%bool_decide_eq_true. Qed.

Lemma eqs_false (a b : gostring) : eqs a b = false → a ≠ b.
Proof. unfold eqs. by intros ?%bool_decide_eq_false. Qed.

Lemma lookupDir_updateDir dir entries ds :
  os.lookupDir dir (os.updateDir dir entries ds) = Some entries.
Proof.
  induction ds as [|[p es] ds IH]; simpl.
  - by rewrite eqs_refl.
  - destruct (eqs p dir) eqn:E; simpl; by rewrite E.
Qed.

Lemma lookupDir_updateDir_ne dir dir' entries ds :
  dir' ≠ dir →
  os.lookupDir dir' (os.updateDir dir entries ds) = os.lookupDir dir' ds.
Proof.
  intros Hne. induction ds as [|[p es] ds IH]; simpl.
  - destruct (eqs dir dir') eqn:E; [by apply eqs_true in E|done].
  - destruct (eqs p dir) eqn:E; simpl.
    + apply eqs_true in E as ->.
      destruct (eqs dir dir') eqn:E'; [by apply eqs_true in E'|done].
    + by destruct (eqs p dir').
Qed.

Lemma findEntry_putEntry name data entries :
  os.findEntry name (os.putEntry name data entries)
  = Some (mkEntry name false data true).
Proof.
  induction entries as [|e es IH]; simpl.
  - by rewrite eqs_refl.
  - destruct (eqs (Name e) name) eqn:E; simpl; [by rewrite eqs_refl|by rewrite E].
Qed.

Lemma findEntry_putEntry_ne name name' data entries :
  name' ≠ name →
  os.findEntry name' (os.putEntry name data entries) = os.findEntry name' entries.
Proof.
  intros Hne. induction entries as [|e es IH]; simpl.
  - destruct (eqs name name') eqn:E; [by apply eqs_true in E|done].
  - destruct (eqs (Name e) name) eqn:E; simpl.
    + apply eqs_true in E. rewrite E.
      destruct (eqs name name') eqn:E'; [by apply eqs_true in E'|done].
    + by destruct (eqs (Name e) name').
Qed.

(** A successful write leaves the bytes written under the name, every
    other file as it was, and the clock alone. *)
Lemma WriteFile_Ok dir name data w w' :
  os.WriteFile dir name data w = (Ok (), w') →
  fileData dir name w' = Some data
  ∧ (∀ name', name' ≠ name → fileData dir name' w' = fileData dir name' w)
  ∧ (∀ dir', dir' ≠ dir → os.lookupDir dir' (dirs w') = os.lookupDir dir' (dirs w))
  ∧ clock w' = clock w ∧ ticks w' = ticks w.
Proof.
  unfold os.WriteFile.
  destruct (os.lookupDir dir (dirs w)) as [entries|] eqn:Hdir; [|done].
  assert (∀ w0, w0 = mkWorld (os.updateDir dir (os.putEntry name data entries) (dirs w))
                          (clock w) (ticks w) →
          fileData dir name w0 = Some data
          ∧ (∀ name', name' ≠ name → fileData dir name' w0 = fileData dir name' w)
          ∧ (∀ dir', dir' ≠ dir → os.lookupDir dir' (dirs w0) = os.lookupDir dir' (dirs w))
          ∧ clock w0 = clock w ∧ ticks w0 = ticks w) as Hpost.
  { intros w0 ->. unfold fileData, os.ReadFile. simpl.
    rewrite lookupDir_updateDir, findEntry_putEntry. simpl.
    split; [done|]. split; [|split; [|done]].
    - intros name' Hne. rewrite Hdir, findEntry_putEntry_ne by done.
      destruct (os.findEntry name' entries) as [e|]; [|done].
      by destruct (negb (IsDir e) && Readable e).
    - intros dir' Hne. by apply lookupDir_updateDir_ne. }
  destruct (os.findEntry name entries) as [e|].
  - destruct (IsDir e || negb (Readable e)); [done|].
    intros [= <-]. by apply Hpost.
  - intros [= <-]. by apply Hpost.
Qed.

Lemma saveNoteToFile_Ok m note w w' :
  saveNoteToFile m note w = (Ok (), w') →
  ∃ dir, primaryDir m = Some dir
         ∧ os.WriteFile dir (Filename note) (serialize note) w = (Ok (), w').
Proof.
  unfold saveNoteToFile, primaryDir, serialize.
  destruct (notesDirs m) as [|dir ds]; [done|]. intros H. by exists dir.
Qed.

Lemma MkdirAll_spec dir w :
  ∃ w', os.MkdirAll dir w = (Ok (), w')
        ∧ is_Some (os.lookupDir dir (dirs w'))
        ∧ (∀ name, fileData dir name w' = fileData dir name w)
        ∧ clock w' = clock w ∧ ticks w' = ticks w.
Proof.
  unfold os.MkdirAll.
  destruct (os.lookupDir dir (dirs w)) as [entries|] eqn:Hdir.
  - exists w. rewrite Hdir. by repeat (split; [by eauto|]).
  - eexists. split; [reflexivity|]. simpl. rewrite lookupDir_updateDir.
    split; [by eexists|]. split; [|done].
    intros name. unfold fileData, os.ReadFile. simpl.
    by rewrite lookupDir_updateDir, Hdir.
Qed.

(** *** Creating a note *)

Lemma CreateNote_inv m title content tags format w note w' :
  CreateNote m title content tags format w = (Ok note, w') →
  ∃ dir w2,
    primaryDir m = Some dir
    ∧ os.MkdirAll dir (mkWorld (dirs w) (clock w) (S (ticks w))) = (Ok (), w2)
    ∧ os.WriteFile dir (Filename note) (serialize note) w2 = (Ok (), w')
    ∧ note = (let now := clock w (ticks w) in
              let id := time.Format now layoutID ++ lit "_" ++ sanitizeTitle title in
              let fmt := if validFormat format then format else lit "txt" in
              mkNote id title content now now tags fmt (id ++ lit "." ++ fmt)).
Proof.
  unfold CreateNote, mbind, io_bind, mret, io_ret, Now, primaryDir. simpl.
  destruct (notesDirs m) as [|dir ds] eqn:Hdirs; [done|].
  destruct (os.MkdirAll dir _) as [[[]|e] w2] eqn:Hmk; [|done].
  unfold saveNoteToFile. rewrite Hdirs.
  match goal with
  | |- context [os.WriteFile dir ?n ?c w2] =>
      destruct (os.WriteFile dir n c w2) as [[[]|e] w3] eqn:Hwrite; [|done]
  end.
  intros [= <- <-]. exists dir, w2. split; [done|]. split; [done|].
  revert Hwrite. unfold validFormat, lit. simpl.
  destruct (eqs format _), (eqs format _), (eqs format _); simpl;
    intros Hwrite; (split; [exact Hwrite|reflexivity]).
Qed.

(** X1: a successful [CreateNote] returns the note built from its
    arguments and one reading of the clock, its format being the one
    asked for when that is org, txt or md and txt otherwise, and it leaves
    in the primary directory, under the note's file name, the note's
    serialization: the outline dialect for org, the plain dialect for
    txt and md. *)
Theorem X1_CreateNote_writes_serialization m title content tags format w note w' :
  CreateNote m title content tags format w = (Ok note, w') →
  ∃ dir,
    primaryDir m = Some dir
    ∧ fileData dir (Filename note) w' = Some (serialize note)
    ∧ Format note = (if validFormat format then format else lit "txt")
    ∧ Title note = title ∧ Content note = content ∧ Tags note = tags
    ∧ Created note = clock w (ticks w) ∧ Modified note = clock w (ticks w)
    ∧ ticks w' = S (ticks w).
Proof.
  intros H. apply CreateNote_inv in H as (dir & w2 & Hdir & Hmk & Hwrite & ->).
  exists dir. split; [done|].
  apply WriteFile_Ok in Hwrite as (Hdata & _ & _ & _ & Hticks).
  split; [exact Hdata|]. cbn.
  repeat (split; [done|]).
  destruct (MkdirAll_spec dir (mkWorld (dirs w) (clock w) (S (ticks w))))
    as (w2' & Hmk' & _ & _ & _ & Ht).
  rewrite Hmk in Hmk'. injection Hmk' as <-. by rewrite Hticks, Ht.
Qed.

Lemma X1_CreateNote_writes_serialization_witness :
  ∃ note w' dir,
    primaryDir theManager = Some dir
    ∧ fileData dir (Filename note) w' = Some (serialize note)
    ∧ Format note = (if validFormat (lit "rtf") then lit "rtf" else lit "txt")
    ∧ Title note = lit "Plan" ∧ Content note = lit "body" ∧ Tags note = [lit "a"]
    ∧ Created note = dec1_143022 ∧ Modified note = dec1_143022
    ∧ ticks w' = 1%nat.
Proof.
  eexists _, _.
  eapply (X1_CreateNote_writes_serialization theManager (lit "Plan") (lit "body")
            [lit "a"] (lit "rtf") (emptyWorldAt dec1_143022)).
  vm_compute. reflexivity.
Defined.
